(** * Venue finder: the recommender's pure core, embedded and verified

    The development follows [venue_recommender.py]: the text helpers the
    parser relies on ([PyStr]), the venue suggestion parser ([Parser]), the
    fairness ranker ([Ranker]), the directions client with its deep links
    ([Directions]), the follow-up responder ([Followup]), the padding of
    transport preferences done by [get_recommendations] ([Orchestrator])
    and the whole recommendation with the calls it makes ([Recommender]);
    and, from [main.py], the group size, the validation of the form and
    the conversation history ([App]).

    Texts are [string]s whose characters are read as the code points
    U+0000..U+00FF; on that range [isdigit], [isspace], [lower] and
    [quote_plus] are the tables of CPython. *)

From Stdlib Require Import List String Ascii Bool Arith ZArith QArith Lia.
From Stdlib Require Import DecimalString.
From Stdlib Require Import Permutation Sorted.
From Equations Require Import Equations.
Import ListNotations.

Local Open Scope string_scope.
Local Open Scope list_scope.
Local Open Scope nat_scope.

(** ** Python's [str] methods used by the recommender *)

Module PyStr.

(** [str.isdigit] on one character: the decimal digits and the three
    superscript digits of Latin-1. *)
Definition isdigit (c : ascii) : bool :=
  let n := nat_of_ascii c in
  ((48 <=? n) && (n <=? 57)) || (n =? 178) || (n =? 179) || (n =? 185).

(** [str.isspace] on one character: TAB..CR, FS..US, SPACE, NEL, NBSP. *)
Definition isspace (c : ascii) : bool :=
  let n := nat_of_ascii c in
  ((9 <=? n) && (n <=? 13)) || ((28 <=? n) && (n <=? 32))
  || (n =? 133) || (n =? 160).

(** [any(p(ch) for ch in s)] *)
Fixpoint any (p : ascii -> bool) (s : string) : bool :=
  match s with
  | EmptyString => false
  | String c r => p c || any p r
  end.

(** [all(p(ch) for ch in s)] *)
Fixpoint all (p : ascii -> bool) (s : string) : bool :=
  match s with
  | EmptyString => true
  | String c r => p c && all p r
  end.

(** Truth value of a string: non-empty. *)
Definition truthy (s : string) : bool :=
  match s with EmptyString => false | String _ _ => true end.

Fixpoint lstrip (s : string) : string :=
  match s with
  | EmptyString => EmptyString
  | String c r => if isspace c then lstrip r else s
  end.

Fixpoint rstrip (s : string) : string :=
  match s with
  | EmptyString => EmptyString
  | String c r =>
      match rstrip r with
      | EmptyString => if isspace c then EmptyString else String c EmptyString
      | r' => String c r'
      end
  end.

(** [s.strip()] *)
Definition strip (s : string) : string := rstrip (lstrip s).

(** The pieces of [s] between the characters satisfying [p]; a piece may
    be empty and there is always at least one. *)
Fixpoint fields (p : ascii -> bool) (s : string) : list string :=
  match s with
  | EmptyString => [EmptyString]
  | String c r =>
      if p c then EmptyString :: fields p r
      else match fields p r with
           | h :: t => String c h :: t
           | [] => [String c EmptyString]
           end
  end.

(** [s.split(sep)] for a one-character separator. *)
Definition split_char (sep : ascii) (s : string) : list string :=
  fields (Ascii.eqb sep) s.

(** [s.split()]: runs of whitespace separate, no empty piece is kept. *)
Definition split_ws (s : string) : list string :=
  filter truthy (fields isspace s).

(** [s.count(c)] for a one-character [c]. *)
Fixpoint count_char (c : ascii) (s : string) : nat :=
  match s with
  | EmptyString => 0
  | String d r => (if Ascii.eqb d c then 1 else 0) + count_char c r
  end.

Fixpoint skip (n : nat) (s : string) : string :=
  match n, s with
  | S m, String _ r => skip m r
  | _, _ => s
  end.

(** [s.split(sep, 1)] when [sep] occurs in [s]: the text before the
    leftmost occurrence and the text after it; [None] when it does not
    occur. *)
Fixpoint split_once (sep s : string) : option (string * string) :=
  if String.prefix sep s then Some (EmptyString, skip (String.length sep) s)
  else match s with
       | EmptyString => None
       | String c r =>
           match split_once sep r with
           | Some (a, b) => Some (String c a, b)
           | None => None
           end
       end.

(** [x in xs] for a list of strings. *)
Definition mem (x : string) (xs : list string) : bool :=
  existsb (String.eqb x) xs.

(** [sep.join(xs)] *)
Fixpoint join (sep : string) (xs : list string) : string :=
  match xs with
  | [] => EmptyString
  | [x] => x
  | x :: rest => (x ++ sep ++ join sep rest)%string
  end.

End PyStr.

(** ** The venue suggestion parser *)

Module Parser.
Import PyStr.

Record venue_candidate := mk_candidate {
  venue_name : string;
  venue_address : string
}.

Definition newline : ascii := ascii_of_nat 10.

(** [response.choices[0].message.content or "No venues found"] *)
Definition venue_suggestions (content : option string) : string :=
  match content with
  | Some s => if truthy s then s else "No venues found"
  | None => "No venues found"
  end.

(** Line selection: the stripped non-blank lines that hold a digit. *)
Definition venue_lines (raw : string) : list string :=
  map strip
      (filter (fun line => truthy (strip line) && any isdigit line)
              (split_char newline raw)).

Definition comma_count (line : string) : nat := count_char "," line.

Definition number_sequences (line : string) : nat :=
  List.length (filter (any isdigit) (split_ws line)).

(** The test guarding [filtered_venue_lines.append(line)]. *)
Definition acceptable (line : string) : bool :=
  (comma_count line <=? 10) && (number_sequences line <=? 8)
  && (String.length line <=? 200).

(** The loop that builds [filtered_venue_lines]. *)
Definition filter_lines (lines : list string) : list string :=
  fold_left (fun acc line => if acceptable line then acc ++ [line] else acc)
            lines [].

(** [if not filtered_venue_lines: filtered_venue_lines = venue_lines[:5]] *)
Definition degrade (lines filtered : list string) : list string :=
  match filtered with
  | [] => firstn 5 lines
  | _ => filtered
  end.

Definition fallback_venues : list string :=
  [ "The Hoxton Holborn - 199-206 High Holborn, Holborn, London WC1V 7BD";
    "Dishoom King's Cross - 5 Stable Street, King's Cross, London N1C 4AB";
    "The Ivy City Garden - 1 Angel Court, Bank, London EC2R 7HJ";
    "Sketch - 9 Conduit Street, Mayfair, London W1S 2XG";
    "Duck & Waffle - 110 Bishopsgate, Liverpool Street, London EC2N 4AY" ].

(** The loop over [fallback_venues], with its [break]. *)
Fixpoint add_fallbacks (fallbacks lines : list string) : list string :=
  match fallbacks with
  | [] => lines
  | fallback :: rest =>
      if 5 <=? List.length lines then lines
      else if mem fallback lines then add_fallbacks rest lines
      else add_fallbacks rest (lines ++ [fallback])
  end.

(** [fallback not in filtered_venue_lines] *)
Definition absent (lines : list string) (fallback : string) : bool :=
  negb (mem fallback lines).

(** [if len(filtered_venue_lines) < 3: ...] *)
Definition top_up (lines : list string) : list string :=
  if List.length lines <? 3 then add_fallbacks fallback_venues lines
  else lines.

(** The lines left after the validity filter and the degraded fallback. *)
Definition surviving_lines (raw : string) : list string :=
  let lines := venue_lines raw in
  degrade lines (filter_lines lines).

(** The lines the enrichment loop runs over: [filtered_venue_lines[:5]]. *)
Definition selected_lines (raw : string) : list string :=
  firstn 5 (top_up (surviving_lines raw)).

(** Name and address of one line. *)
Definition split_fields (venue_line : string) : venue_candidate :=
  match split_once " - " venue_line with
  | Some (before, after) =>
      let name := match split_once ". " before with
                  | Some (_, rest) => rest
                  | None => before
                  end in
      mk_candidate name after
  | None =>
      let venue_part := match split_once ". " venue_line with
                        | Some (_, rest) => rest
                        | None => venue_line
                        end in
      let name := match split_once "," venue_part with
                  | Some (before, _) => before
                  | None => venue_part
                  end in
      mk_candidate name venue_part
  end.

Definition parse_venues (raw : string) : list venue_candidate :=
  map split_fields (selected_lines raw).

End Parser.

(** ** Decoded responses, exceptions and the interpreter's services *)

Module Py.
Import PyStr.

#[local] Unset Elimination Schemes.
Inductive json :=
| JNull
| JBool (b : bool)
| JInt (n : Z)
| JStr (s : string)
| JArr (items : list json)
| JObj (members : list (string * json)).
#[local] Set Elimination Schemes.

Inductive exn :=
| KeyError (key : string)
| IndexError
| TypeError
| OverflowError
| ZeroDivisionError
| ImportError
| RequestError (detail : string)
| APIError (detail : string).

Definition result (A : Type) : Type := exn + A.

Definition raise {A} (e : exn) : result A := inl e.
Definition ret {A} (a : A) : result A := inr a.
Definition bind {A B} (m : result A) (k : A -> result B) : result B :=
  match m with
  | inl e => inl e
  | inr a => k a
  end.

Declare Scope result_scope.
Delimit Scope result_scope with result.
Notation "'do' x <- m ; k" := (bind m (fun x => k))
  (at level 10, x name, m at level 100, k at level 200) : result_scope.

Fixpoint assoc (k : string) (ms : list (string * json)) : option json :=
  match ms with
  | [] => None
  | (k', v) :: rest => if String.eqb k k' then Some v else assoc k rest
  end.

(** [v[k]] for a string key. *)
Definition item (v : json) (k : string) : result json :=
  match v with
  | JObj ms =>
      match assoc k ms with
      | Some x => ret x
      | None => raise (KeyError k)
      end
  | _ => raise TypeError
  end.

(** [v[0]] *)
Definition first (v : json) : result json :=
  match v with
  | JArr (x :: _) => ret x
  | JArr [] => raise IndexError
  | JStr (String c _) => ret (JStr (String c ""))
  | JStr EmptyString => raise IndexError
  | JObj _ => raise (KeyError "0")
  | _ => raise TypeError
  end.

(** Truth value of a decoded value. *)
Definition json_truthy (v : json) : bool :=
  match v with
  | JNull => false
  | JBool b => b
  | JInt n => negb (n =? 0)%Z
  | JStr s => truthy s
  | JArr items => match items with [] => false | _ => true end
  | JObj ms => match ms with [] => false | _ => true end
  end.

(** [v == "OK"] *)
Definition is_ok (v : json) : bool :=
  match v with
  | JStr s => String.eqb s "OK"
  | _ => false
  end.

(** The value as an operand of [-]: an integer, a boolean counting as 0
    or 1, anything else a [TypeError]. *)
Definition as_number (v : json) : result Z :=
  match v with
  | JInt n => ret n
  | JBool b => ret (Z.b2z b)
  | _ => raise TypeError
  end.

(** What the interpreter and its libraries supply: the clock, the
    calendar and the printing of values. *)
Class Runtime := {
  datetime : Type;
  (** [d.timestamp()], in whole seconds *)
  timestamp : datetime -> Z;
  (** [datetime.fromtimestamp(t)] *)
  fromtimestamp : Z -> result datetime;
  (** [d.strftime("%I:%M %p")] *)
  strftime_clock : datetime -> string;
  (** [datetime.now()] as read by the lookup *)
  now : datetime;
  (** [str(e)] *)
  str_exn : exn -> string;
  (** [str(v)] for a decoded value that is not a string *)
  str_json : json -> string
}.

(** A value inside an f-string. *)
Definition fmt `{Runtime} (v : json) : string :=
  match v with
  | JStr s => s
  | _ => str_json v
  end.

(** [str(int(z))] *)
Definition str_int (z : Z) : string := NilZero.string_of_int (Z.to_int z).

(** [os.getenv(name)] when it is truthy. *)
Definition credential (v : option string) : option string :=
  match v with
  | Some k => if truthy k then Some k else None
  | None => None
  end.

End Py.

(** ** The directions client *)

Module Directions.
Import PyStr Py.

(** *** Deep links *)

Definition hex_digit (n : nat) : ascii :=
  nth n ["0"; "1"; "2"; "3"; "4"; "5"; "6"; "7"; "8"; "9";
         "A"; "B"; "C"; "D"; "E"; "F"]%char "0"%char.

(** ['%{:02X}'.format(b)] *)
Definition percent (b : nat) : string :=
  String "%" (String (hex_digit (b / 16)) (String (hex_digit (b mod 16)) "")).

(** The UTF-8 bytes of one character of the modelled range. *)
Definition utf8 (c : ascii) : list nat :=
  let n := nat_of_ascii c in
  if n <? 128 then [n] else [192 + n / 64; 128 + n mod 64].

(** [urllib.parse]'s always-safe bytes: letters, digits and [_.-~]. *)
Definition always_safe (b : nat) : bool :=
  ((65 <=? b) && (b <=? 90)) || ((97 <=? b) && (b <=? 122))
  || ((48 <=? b) && (b <=? 57))
  || (b =? 95) || (b =? 46) || (b =? 45) || (b =? 126).

Definition quote_byte (b : nat) : string :=
  if always_safe b then String (ascii_of_nat b) ""
  else if b =? 32 then "+"
  else percent b.

(** [urllib.parse.quote_plus(s)] *)
Fixpoint quote_plus (s : string) : string :=
  match s with
  | EmptyString => EmptyString
  | String c r =>
      (String.concat "" (map quote_byte (utf8 c)) ++ quote_plus r)%string
  end.

(** The characters a quoted text is made of: the always-safe ones, [+]
    and [%]. *)
Definition url_char (c : ascii) : bool :=
  always_safe (nat_of_ascii c) || Ascii.eqb c "+" || Ascii.eqb c "%".

(** [mode_map.get(mode, "driving")] *)
Definition google_mode (mode : string) : string :=
  if String.eqb mode "driving" then "driving"
  else if String.eqb mode "transit" then "transit"
  else if String.eqb mode "walking" then "walking"
  else if String.eqb mode "bicycling" then "bicycling"
  else "driving".

Definition _generate_google_maps_link (origin destination mode : string)
  : string :=
  ("https://www.google.com/maps/dir/" ++ quote_plus origin ++ "/"
   ++ quote_plus destination ++ "/@?hl=en&travelmode=" ++ google_mode mode)%string.

(** *** The lookup *)

(** The dictionary the lookup returns; [raw_duration_seconds] is the key
    that only the successful path sets. *)
Record leg := mk_leg {
  duration : string;
  distance : string;
  route_info : string;
  detailed_steps : list string;
  departure_time : string;
  arrival_time : string;
  google_maps_link : string;
  raw_duration_seconds : option Z
}.

(** One GET: the URL and the query parameters, in insertion order. *)
Record request := mk_request {
  url : string;
  params : list (string * string)
}.

(** The surroundings of one lookup: the environment variable and what
    [requests.get(...)], [raise_for_status()] and [response.json()] yield
    for a request. *)
Record world := mk_world {
  GOOGLE_MAPS_API_KEY : option string;
  get_json : request -> result json
}.

Definition base_url : string :=
  "https://maps.googleapis.com/maps/api/directions/json".

Definition directions_params `{Runtime} (key origin destination mode : string)
  (meeting : option datetime) : list (string * string) :=
  [("origin", origin); ("destination", destination);
   ("mode", google_mode mode); ("key", key); ("units", "metric")]
  ++ match meeting with
     | Some d =>
         if String.eqb mode "transit" || String.eqb mode "driving"
         then [("departure_time", str_int (timestamp d))]
         else []
     | None => []
     end
  ++ (if String.eqb mode "transit" then [("alternatives", "true")] else []).

Definition directions_request `{Runtime} (key origin destination mode : string)
  (meeting : option datetime) : request :=
  mk_request base_url (directions_params key origin destination mode meeting).

(** The dictionary returned when the credential is missing. *)
Definition key_missing_leg (origin destination mode : string) : leg :=
  mk_leg "API key not available" "Unknown"
         "Google Maps API key required for real-time data" []
         "Unknown" "Unknown"
         (_generate_google_maps_link origin destination mode) None.

(** [data.get("error_message", "Route not found")], inside an f-string. *)
Definition error_message `{Runtime} (data : json) : string :=
  match data with
  | JObj ms => match assoc "error_message" ms with
               | Some v => fmt v
               | None => "Route not found"
               end
  | _ => "Route not found"
  end.

(** The dictionary returned when the status is not OK or no route came. *)
Definition not_available_leg (origin destination mode error_msg : string)
  : leg :=
  mk_leg "Route not available" "Unknown" ("Error: " ++ error_msg) []
         "Unknown" "Unknown"
         (_generate_google_maps_link origin destination mode) None.

(** The dictionary returned by the [except] clause. *)
Definition error_leg `{Runtime} (origin destination mode : string) (e : exn)
  : leg :=
  mk_leg "Error calculating time" "Unknown" ("API Error: " ++ str_exn e) []
         "Unknown" "Unknown"
         (_generate_google_maps_link origin destination mode) None.


(** The body of the [try], once the response is decoded. *)
Definition read_route `{Runtime} (origin destination mode : string)
  (meeting : option datetime) (data : json) : result leg :=
  (do status <- item data "status";
   do found <- (if is_ok status
                then do routes <- item data "routes"; ret (json_truthy routes)
                else ret false);
   if found then
     do routes <- item data "routes";
     do route <- first routes;
     do legs <- item route "legs";
     do leg0 <- first legs;
     do dur <- item leg0 "duration";
     do duration_text <- item dur "text";
     do dist <- item leg0 "distance";
     do distance_text <- item dist "text";
     do duration_value <- item dur "value";
     let arrival := match meeting with Some d => d | None => now end in
     do seconds <- as_number duration_value;
     do leave <- fromtimestamp (timestamp arrival - seconds);
     ret (mk_leg (fmt duration_text) (fmt distance_text)
                 (fmt duration_text ++ " via " ++ mode) []
                 (strftime_clock leave) (strftime_clock arrival)
                 (_generate_google_maps_link origin destination mode)
                 (Some seconds))
   else ret (not_available_leg origin destination mode (error_message data))
  )%result%string.

(** [_get_travel_time_and_route]: the leg, and the requests issued. *)
Definition _get_travel_time_and_route `{Runtime} (w : world)
  (origin destination mode : string) (meeting : option datetime)
  : leg * list request :=
  match credential (GOOGLE_MAPS_API_KEY w) with
  | None => (key_missing_leg origin destination mode, [])
  | Some key =>
      let req := directions_request key origin destination mode meeting in
      (match bind (get_json w req)
                  (read_route origin destination mode meeting) with
       | inr l => l
       | inl e => error_leg origin destination mode e
       end,
       [req])
  end.

End Directions.

(** ** The fairness ranker *)

Module Ranker.
Import PyStr Py Directions.

(** The body of the per-person loop that touches the two counters:
    [(total_duration_seconds, max_duration_seconds)]. *)
Definition add_leg (acc : Z * Z) (travel_info : leg) : Z * Z :=
  match raw_duration_seconds travel_info with
  | Some d => (fst acc + d, Z.max (snd acc) d)%Z
  | None => acc
  end.

Definition tally (legs : list leg) : Z * Z := fold_left add_leg legs (0, 0)%Z.

Definition total_duration_seconds (legs : list leg) : Z := fst (tally legs).
Definition max_duration_seconds (legs : list leg) : Z := snd (tally legs).

(** [total // len(locations) // 60 if total > 0 else 0] *)
Definition avg_time_minutes (participants : nat) (total : Z) : result Z :=
  if (0 <? total)%Z then
    if participants =? 0 then raise ZeroDivisionError
    else ret (total / Z.of_nat participants / 60)%Z
  else ret 0%Z.

(** [max // 60 if max > 0 else 0] *)
Definition max_time_minutes (longest : Z) : Z :=
  if (0 <? longest)%Z then (longest / 60)%Z else 0%Z.

(** [(max_duration_seconds * 1.5) + total_duration_seconds]; the float
    product and sum are exact on durations in seconds, so the score is
    kept as a rational. *)
Definition suitability_score (legs : list leg) : Q :=
  (inject_Z (max_duration_seconds legs) * (3 # 2)
   + inject_Z (total_duration_seconds legs))%Q.

(** One entry of [detailed_results]: the score and the venue block. *)
Definition scored : Type := Q * string.

(** [detailed_results.sort(key=lambda x: x[0])]: the stable ascending
    sort of the list, by insertion from the right. *)
Fixpoint insert (x : scored) (l : list scored) : list scored :=
  match l with
  | [] => [x]
  | y :: rest =>
      if Qle_bool (fst x) (fst y) then x :: l else y :: insert x rest
  end.

Fixpoint sort (l : list scored) : list scored :=
  match l with
  | [] => []
  | x :: rest => insert x (sort rest)
  end.

(** The venue blocks, in the order the document shows them. *)
Definition venue_blocks (detailed_results : list scored) : list string :=
  map snd (sort detailed_results).

(** [final_response]: the text before the blocks, the blocks joined by a
    blank line, the text after them. *)
Definition final_response (heading tips : string)
  (detailed_results : list scored) : string :=
  (heading ++ join (String Parser.newline (String Parser.newline ""))
                   (venue_blocks detailed_results) ++ tips)%string.

End Ranker.

(** ** The orchestrator's handling of transport preferences *)

Module Orchestrator.
Import PyStr Py Directions Ranker.

(** [while len(transport_preferences) < len(locations): append("driving")] *)
Equations? pad (locations transport_preferences : list string) : list string
  by wf (List.length locations - List.length transport_preferences) lt :=
  pad locations prefs with lt_dec (List.length prefs) (List.length locations) => {
    | left _ := pad locations (prefs ++ ["driving"]);
    | right _ := prefs }.
Proof. rewrite length_app; simpl; lia. Qed.

(** The list [get_recommendations] hands on. *)
Definition effective_preferences (locations : list string)
  (transport_preferences : option (list string)) : list string :=
  match transport_preferences with
  | None => pad locations (repeat "driving" (List.length locations))
  | Some prefs => pad locations prefs
  end.

(** [transport if transport != "Any" else "driving"] *)
Definition actual_transport (transport : string) : string :=
  if String.eqb transport "Any" then "driving" else transport.

(** The per-person loop of one venue: one lookup per pair of
    [zip(locations, transport_preferences)]. *)
Definition travel_infos `{Runtime} (w : world)
  (locations transport_preferences : list string) (venue_address : string)
  (meeting_datetime : datetime) : list leg :=
  map (fun pair =>
         fst (_get_travel_time_and_route w (fst pair) venue_address
                (actual_transport (snd pair)) (Some meeting_datetime)))
      (combine locations transport_preferences).

(** The legs of one venue as [get_recommendations] obtains them. *)
Definition venue_legs `{Runtime} (w : world) (locations : list string)
  (transport_preferences : option (list string)) (venue_address : string)
  (meeting_datetime : datetime) : list leg :=
  travel_infos w locations
    (effective_preferences locations transport_preferences)
    venue_address meeting_datetime.

(** The figures of one venue's summary line and its score. *)
Definition venue_summary (locations : list string) (legs : list leg)
  : result (Z * Z * Q) :=
  (do avg <- avg_time_minutes (List.length locations)
                              (total_duration_seconds legs);
   ret (avg, max_time_minutes (max_duration_seconds legs),
        suitability_score legs))%result.

End Orchestrator.

(** ** The follow-up responder *)

Module Followup.
Import PyStr Py.

Record chat_request := mk_chat {
  model : string;
  messages : list (string * string);
  max_tokens : nat;
  temperature : Q
}.

(** The surroundings of one answer: the environment variable, the
    import and construction of the client, and what
    [client.chat.completions.create(...)] followed by
    [.choices[0].message.content] yields. *)
Record world := mk_world {
  OPENAI_API_KEY : option string;
  make_client : string -> result unit;
  create : chat_request -> result (option string)
}.

(** U+274C, outside the modelled range: held as the bytes of this
    file's encoding and only ever compared as a whole. *)
Definition cross_mark : string := "❌".

Definition key_missing : string :=
  (cross_mark ++ " OPENAI_API_KEY not found. Please check your .env file configuration.")%string.

Definition system_prompt : string :=
  "You are a venue finder assistant helping with follow-up questions about previously recommended venues. 

IMPORTANT: You have been provided with specific venue recommendations in the context. When answering questions, you should:
1. Reference the SPECIFIC venues that were previously recommended by name
2. Use the details from those recommendations (addresses, descriptions, travel times)
3. Answer based on the actual venues provided, not generic categories
4. If asked about suitability for different purposes (like dates), evaluate each specific venue mentioned

Always refer to the actual venue names and details from the context, not generic venue types.".

Definition prompt_with_context (context query : string) : string :=
  ("Based on these previously recommended venues:

" ++ context ++ "

Please answer this follow-up question by referring to the SPECIFIC venues listed above:

Question: " ++ query ++ "

Remember to:
- Mention specific venue names from the recommendations
- Use the actual details provided about each venue
- Give personalized advice based on the venues that were suggested
- If discussing suitability for different activities (like dates), evaluate each specific venue")%string.

Definition prompt_without_context (query : string) : string :=
  ("I don't have the context of previous venue recommendations. 

Question: " ++ query ++ "

I need the original venue recommendations to give you a specific answer about which venues would be good for your request. Could you please ask for new venue recommendations first?")%string.

Definition full_prompt (query context : string) : string :=
  if truthy (strip context) then prompt_with_context context query
  else prompt_without_context query.

Definition followup_request (query context : string) : chat_request :=
  mk_chat "gpt-4o-mini"
          [("system", system_prompt); ("user", full_prompt query context)]
          800 (3 # 10).

(** [_handle_followup_async]: the answer, and the requests issued. *)
Definition _handle_followup_async `{Runtime} (w : world)
  (query context : string) : string * list chat_request :=
  match credential (OPENAI_API_KEY w) with
  | None => (key_missing, [])
  | Some key =>
      match make_client w key with
      | inl e => (("Error processing question: " ++ str_exn e)%string, [])
      | inr _ =>
          let req := followup_request query context in
          (match create w req with
           | inr (Some content) =>
               if truthy content then content
               else "No response received from API"
           | inr None => "No response received from API"
           | inl e => ("Error processing question: " ++ str_exn e)%string
           end,
           [req])
      end
  end.

End Followup.

(** ** The ranking in the specification's words *)

Module FairnessSpec.
Import Directions Ranker.

(** What a leg counts for: its authoritative duration, and 0 when it has
    none. *)
Definition counted (l : leg) : Z :=
  match raw_duration_seconds l with
  | Some d => d
  | None => 0%Z
  end.

Definition sum_of (ds : list Z) : Z := fold_right Z.add 0%Z ds.

(** The greatest of the durations, 0 for no leg at all. *)
Definition max_of (ds : list Z) : Z := fold_right Z.max 0%Z ds.

(** Ascending order of score. *)
Definition by_score (a b : scored) : Prop := (fst a <= fst b)%Q.

(** The entries whose score equals [s]. *)
Definition same_score (s : Q) (r : scored) : bool := Qeq_bool (fst r) s.

End FairnessSpec.

(** ** Sample inputs *)

Module Samples.
Import PyStr Py Parser.


Definition nl : string := String newline "".

(** Three well-formed suggestion lines. *)
Definition three_lines : string :=
  ("1. Cafe A - 12 High St, Camden, London NW1 7JE" ++ nl
   ++ "2. Cafe B - 3 Low St, Soho, London W1D 3QU" ++ nl
   ++ "3. Cafe C - 5 Mid St, Soho, London W1D 3QX")%string.

(** Two well-formed suggestion lines after a line of preamble. *)
Definition two_lines : string :=
  ("Here are my picks:" ++ nl
   ++ "1. Cafe A - 12 High St, Camden, London NW1 7JE" ++ nl
   ++ "2. Sketch - 9 Conduit Street, Mayfair, London W1S 2XG")%string.

(** One line that enumerates numbers instead of giving an address. *)
Definition enumeration : string := "1, 2, 3, 4, 5, 6, 7, 8, 9, 10, 11, 12".

(** A line with twelve commas and no digit at all. *)
Definition twelve_commas : string := "a,b,c,d,e,f,g,h,i,j,k,l,m".

(** A successful leg of [d] seconds; only the duration matters to the
    ranker. *)
Definition timed (d : Z) : Directions.leg :=
  Directions.mk_leg "" "" "" [] "" "" "" (Some d).

(** A degraded leg. *)
Definition untimed : Directions.leg :=
  Directions.not_available_leg "a" "b" "driving" "Route not found".

(** An interpreter for the examples: instants are their timestamps, the
    clock text is the timestamp in decimal, exceptions print their
    detail. *)
Definition sample_runtime : Runtime := {|
  datetime := Z;
  timestamp := fun d => d;
  fromtimestamp := fun t => ret t;
  strftime_clock := str_int;
  now := 0%Z;
  str_exn := fun e => match e with
                      | KeyError k => k
                      | RequestError d => d
                      | APIError d => d
                      | _ => "error"
                      end;
  str_json := fun _ => "?"
|}.

(** A decoded directions response with one route of 1500 seconds. *)
Definition ok_response : json :=
  JObj [("status", JStr "OK");
        ("routes",
         JArr [JObj [("legs",
                      JArr [JObj [("duration",
                                   JObj [("text", JStr "25 mins");
                                         ("value", JInt 1500)]);
                                  ("distance",
                                   JObj [("text", JStr "7.4 km")])]])]])].







Definition routing : Directions.world :=
  Directions.mk_world (Some "maps-key") (fun _ => ret ok_response).

(** A text-generation service that answers every request. *)
Definition answering : Followup.world :=
  Followup.mk_world (Some "sk-test") (fun _ => ret tt)
                    (fun _ => ret (Some "Happy to help!")).

Definition no_openai_key : Followup.world :=
  Followup.mk_world None (fun _ => ret tt)
                    (fun _ => ret (Some "Happy to help!")).

End Samples.

(** ** The validity filter over all of Unicode *)

Module AnyText.

Section Tables.

(** [str.isdigit] and [str.isspace] on one code point: the tables of the
    interpreter, whatever they hold. *)
Variables isdigit isspace : N -> bool.

(** [ord(',')] *)
Definition comma : N := 44%N.

(** [line.count(c)] for one character. *)
Fixpoint count (c : N) (line : list N) : nat :=
  match line with
  | [] => 0
  | d :: rest => (if N.eqb d c then 1 else 0) + count c rest
  end.

(** The pieces of the line between whitespace characters. *)
Fixpoint fields (line : list N) : list (list N) :=
  match line with
  | [] => [[]]
  | c :: rest =>
      if isspace c then [] :: fields rest
      else match fields rest with
           | h :: t => (c :: h) :: t
           | [] => [[c]]
           end
  end.

Definition nonempty (part : list N) : bool :=
  match part with [] => false | _ :: _ => true end.

(** [line.split()] *)
Definition split (line : list N) : list (list N) :=
  filter nonempty (fields line).

(** [any(char.isdigit() for char in part)] *)
Definition has_digit (part : list N) : bool := existsb isdigit part.

Definition comma_count (line : list N) : nat := count comma line.

Definition number_sequences (line : list N) : nat :=
  List.length (filter has_digit (split line)).

(** The test guarding [filtered_venue_lines.append(line)]. *)
Definition acceptable (line : list N) : bool :=
  (comma_count line <=? 10) && (number_sequences line <=? 8)
  && (List.length line <=? 200).

(** The loop that builds [filtered_venue_lines]. *)
Definition filter_lines (lines : list (list N)) : list (list N) :=
  fold_left (fun acc line => if acceptable line then acc ++ [line] else acc)
            lines [].

End Tables.

(** The code points of a text of the modelled range. *)
Definition codes (s : string) : list N :=
  map N_of_ascii (list_ascii_of_string s).

(** A table of the modelled range, read on code points. *)
Definition on_codes (p : ascii -> bool) (n : N) : bool := p (ascii_of_N n).

End AnyText.

(** ** The validity filter in the specification's words *)

Module FilterSpec.

(** The commas of a line. *)
Definition commas (line : list N) : nat :=
  List.length (filter (N.eqb 44) line).

(** The whitespace-delimited tokens of a line that contain a digit,
    counted in one pass from the left: [seen] tells whether the token
    being read has shown a digit; a token ends at a whitespace character
    or at the end of the line, and is counted there if it has. *)
Fixpoint digit_tokens (isdigit isspace : N -> bool) (seen : bool)
  (line : list N) : nat :=
  match line with
  | [] => if seen then 1 else 0
  | c :: rest =>
      if isspace c
      then (if seen then 1 else 0) + digit_tokens isdigit isspace false rest
      else digit_tokens isdigit isspace (seen || isdigit c) rest
  end.

End FilterSpec.

(** ** Suggestion lines in the requested format *)

Module Suggestion.
Import PyStr Parser.

(** One line as the prompt asks for it: a number, a name, an address. *)
Record entry := mk_entry {
  number : string;
  name : string;
  address : string
}.

(** [N. Name - Address] *)
Definition line_of (e : entry) : string :=
  (number e ++ ". " ++ name e ++ " - " ++ address e)%string.

Definition candidate_of (e : entry) : venue_candidate :=
  mk_candidate (name e) (address e).

Definition is_char (c d : ascii) : bool := Ascii.eqb c d.

(** The number is made of digits, the name has neither a hyphen nor a
    line break, the address is not empty, has no line break and does not
    end in whitespace, and the whole line passes the validity filter. *)
Definition well_formed (e : entry) : Prop :=
  number e <> EmptyString
  /\ all isdigit (number e) = true
  /\ any (is_char "-") (name e) = false
  /\ any (is_char newline) (name e) = false
  /\ address e <> EmptyString
  /\ rstrip (address e) = address e
  /\ any (is_char newline) (address e) = false
  /\ acceptable (line_of e) = true.

(** The text of a reply holding these lines, one per line. *)
Definition reply (entries : list entry) : string :=
  join (String newline "") (map line_of entries).

Definition five_entries : list entry :=
  [ mk_entry "1" "The Ivy Chelsea Garden" "197 King's Road, Chelsea, London SW3 5ED";
    mk_entry "2" "Dishoom Covent Garden"
             "12 Upper St Martin's Lane, Covent Garden, London WC2H 9FB";
    mk_entry "3" "The Shard Restaurant"
             "31 St Thomas Street, London Bridge, London SE1 9QU";
    mk_entry "4" "Sketch" "9 Conduit Street, Mayfair, London W1S 2XG";
    mk_entry "5" "Flat White" "17 Berwick Street, Soho, London W1F 0PT" ].

End Suggestion.

(** ** Reading a quoted text back *)

Module Unquote.
Import PyStr Directions.

Definition hex_value (c : ascii) : nat :=
  let n := nat_of_ascii c in
  if (48 <=? n) && (n <=? 57) then n - 48
  else if (65 <=? n) && (n <=? 70) then n - 55
  else 0.

(** The bytes a quoted text stands for: [+] is a space, [%XX] the byte
    with that value, any other character itself. *)
Fixpoint unquote_bytes (s : string) : list nat :=
  match s with
  | EmptyString => []
  | String c rest =>
      if Ascii.eqb c "%" then
        match rest with
        | String h (String l rest') =>
            (16 * hex_value h + hex_value l) :: unquote_bytes rest'
        | _ => nat_of_ascii c :: unquote_bytes rest
        end
      else (if Ascii.eqb c "+" then 32 else nat_of_ascii c)
           :: unquote_bytes rest
  end.

(** The characters of the modelled range that the bytes encode. *)
Fixpoint utf8_decode (bs : list nat) : string :=
  match bs with
  | [] => EmptyString
  | b :: rest =>
      if b <? 128 then String (ascii_of_nat b) (utf8_decode rest)
      else match rest with
           | b2 :: rest' =>
               String (ascii_of_nat ((b - 192) * 64 + (b2 - 128)))
                      (utf8_decode rest')
           | [] => EmptyString
           end
  end.


End Unquote.

(** ** Reading a request's parameters *)

Module Params.

(** [params.get(name)] *)
Definition param (name : string) (ps : list (string * string))
  : option string :=
  option_map snd (find (fun kv => String.eqb name (fst kv)) ps).

End Params.

(** ** The whole recommendation *)

Module Recommender.
Import PyStr Py Parser Directions Ranker Orchestrator Followup.

(** [c.lower()] on the modelled range: A-Z and the capital letters of
    Latin-1 move down by 32, everything else stays. *)
Definition lower_char (c : ascii) : ascii :=
  let n := nat_of_ascii c in
  if ((65 <=? n) && (n <=? 90))
     || ((192 <=? n) && (n <=? 222) && negb (n =? 215))
  then ascii_of_nat (n + 32) else c.

Fixpoint lower (s : string) : string :=
  match s with
  | EmptyString => EmptyString
  | String c r => String (lower_char c) (lower r)
  end.

(** Two more services of the interpreter: title case, whose results
    leave the modelled range, and the long date format. *)
Class Formatting (R : Runtime) := {
  (** [s.title()] *)
  title : string -> string;
  (** [d.strftime('%A, %B %d, %Y at %I:%M %p')] *)
  strftime_long : datetime -> string
}.

(** [s == "Any"] *)
Definition is_any (s : string) : bool := String.eqb s "Any".

(** [mood and mood != "Any"] *)
Definition specific (mood : option string) : option string :=
  match mood with
  | Some m => if truthy m && negb (is_any m) then Some m else None
  | None => None
  end.

(** [meeting_area], when truthy *)
Definition provided (meeting_area : option string) : option string :=
  match meeting_area with
  | Some a => if truthy a then Some a else None
  | None => None
  end.

(** [notes and notes.strip()] *)
Definition noted (notes : option string) : option string :=
  match notes with
  | Some n => if truthy n && truthy (strip n) then Some n else None
  | None => None
  end.

(** [f"{i+1}. {loc}"] for the locations from index [i] on. *)
Fixpoint numbered (i : nat) (locations : list string) : list string :=
  match locations with
  | [] => []
  | loc :: rest =>
      (str_int (Z.of_nat (i + 1)) ++ ". " ++ loc)%string :: numbered (S i) rest
  end.

Definition locations_text (locations : list string) : string :=
  join (String newline "") (numbered 0 locations).

Definition venue_prompt (locations : list string) (activity_type : string)
  (meeting_area mood notes : option string) : string :=
  ("Based on these starting locations:
"
   ++ locations_text locations
   ++ "

Meeting requirements:
- Activity: "
   ++ (if is_any activity_type then "flexible (any type of venue)" else lower activity_type)
   ++ "
- Mood/Objective: "
   ++ (match specific mood with Some m => lower m | None => "flexible/open to suggestions" end)
   ++ "
- Meeting area: "
   ++ (match provided meeting_area with Some a => "in " ++ a | None => " roughly halfway between these locations" end)
   ++ "
"
   ++ (match noted notes with Some n => "- Additional notes: " ++ n | None => "" end)
   ++ "

Please suggest EXACTLY 5 specific, high-quality venues that would be excellent for this group"
   ++ (match specific mood with Some m => " AND match the " ++ lower m ++ " vibe" | None => " with versatile atmosphere" end)
   ++ ". 

Consider:
- Venue quality and reputation
"
   ++ (if is_any activity_type then "- Versatility for different types of activities" else "- Suitability for " ++ lower activity_type)
   ++ "
"
   ++ (match specific mood with Some m => "- Perfect match for " ++ lower m ++ " atmosphere" | None => "- Flexible atmosphere that works for various moods" end)
   ++ "
- Good accessibility for the group
- "
   ++ (match noted notes with Some n => "Meeting the specific requirements: " ++ n | None => "" end)
   ++ "

CRITICAL: You MUST provide exactly 5 venues. Provide ONLY real venue names with proper, complete addresses including street name, area, and postcode. Do NOT list ranges of numbers or incomplete addresses.

Provide in this EXACT format (no additional text, just these 5 lines):
1. [Real Venue Name] - [Number] [Street Name], [Area], [City] [Postcode]
2. [Real Venue Name] - [Number] [Street Name], [Area], [City] [Postcode]
3. [Real Venue Name] - [Number] [Street Name], [Area], [City] [Postcode]
4. [Real Venue Name] - [Number] [Street Name], [Area], [City] [Postcode]
5. [Real Venue Name] - [Number] [Street Name], [Area], [City] [Postcode]

Examples of correct format:
- The Ivy Chelsea Garden - 197 King's Road, Chelsea, London SW3 5ED
- Dishoom Covent Garden - 12 Upper St Martin's Lane, Covent Garden, London WC2H 9FB
- The Shard Restaurant - 31 St Thomas Street, London Bridge, London SE1 9QU

IMPORTANT: Return ONLY the 5 numbered venue lines, nothing else. No introduction, no explanation, just the 5 venues"
   ++ (match specific mood with Some m => " that specifically match the " ++ lower m ++ " mood/objective" | None => " that are versatile and work for different preferences" end)
   ++ ".")%string.

Definition venue_request (locations : list string) (activity_type : string)
  (meeting_area mood notes : option string) : chat_request :=
  mk_chat "gpt-4o-mini"
    [("system", "You are a local venue expert. Provide exactly 5 specific, real venue recommendations with exact addresses. Be concise and follow the format exactly.");
     ("user", venue_prompt locations activity_type meeting_area mood notes)]
    600 (1 # 10).

Definition desc_prompt (activity_type : string) (mood : option string)
  (venue_name : string) : string :=
  ("In 1-2 sentences, describe why "
   ++ venue_name
   ++ " is a good choice"
   ++ (if is_any activity_type then " as a versatile venue" else " for " ++ lower activity_type)
   ++ (match specific mood with Some m => " with a " ++ lower m ++ " vibe" | None => " that works for various moods" end)
   ++ ". Consider atmosphere, "
   ++ (if String.eqb activity_type "Restaurant" || String.eqb activity_type "Coffee/Cafe" || is_any activity_type then "food quality, " else "")
   ++ "location, ambiance, and"
   ++ (match specific mood with Some m => " how it matches the " ++ lower m ++ " mood" | None => " its versatility for different preferences" end)
   ++ ".")%string.

Definition description_request (activity_type : string) (mood : option string)
  (venue_name : string) : chat_request :=
  mk_chat "gpt-4o-mini"
    [("system", "You are a venue expert. Provide brief, helpful descriptions.");
     ("user", desc_prompt activity_type mood venue_name)]
    100 (3 # 10).

(** The description of a venue: the generated text, a fixed sentence
    when that is empty, a templated one when the call raises. *)
Definition venue_description (tw : Followup.world) (activity_type : string)
  (mood : option string) (venue_name : string) : string :=
  match create tw (description_request activity_type mood venue_name) with
  | inr (Some content) =>
      if truthy content then content else "Great venue for your meetup."
  | inr None => "Great venue for your meetup."
  | inl _ =>
      ("Excellent " ++ lower activity_type
       ++ " venue in a convenient location.")%string
  end.

(** [transport_emoji.get(transport, ...)]; the glyphs lie outside the
    modelled range and are held as the bytes of this file's encoding. *)
Definition transport_emoji (transport : string) : string :=
  if String.eqb transport "Any" then "🔄"
  else if String.eqb transport "driving" then "🚗"
  else if String.eqb transport "transit" then "🚌"
  else if String.eqb transport "walking" then "🚶"
  else if String.eqb transport "bicycling" then "🚴"
  else "🚗".

Definition transport_display `{Formatting} (transport : string) : string :=
  if String.eqb transport "Any"
  then ("Any (using " ++ title (actual_transport transport) ++ ")")%string
  else title transport.

Definition travel_detail `{Formatting} (person_number : nat)
  (transport : string) (travel_info : leg) : string :=
  ("• **Person "
   ++ str_int (Z.of_nat person_number)
   ++ "** ("
   ++ transport_emoji transport
   ++ " "
   ++ transport_display transport
   ++ "): Leave at "
   ++ departure_time travel_info
   ++ " • Journey time: "
   ++ duration travel_info
   ++ " • <a href='"
   ++ google_maps_link travel_info
   ++ "' target='_blank'>Get directions</a>")%string.

Definition venue_recommendation (venue_name venue_address : string)
  (venue_description : string) (travel_details : list string)
  (avg_time_minutes max_time_minutes : Z) : string :=
  ("
## 📍 "
   ++ venue_name
   ++ "

**Address**: "
   ++ venue_address
   ++ "

**Why this venue**: "
   ++ venue_description
   ++ "

**🚶‍♂️ Travel Details:**  
"
   ++ join "<br>" travel_details
   ++ "

**📊 Summary**: Average "
   ++ str_int avg_time_minutes
   ++ " mins • Longest journey "
   ++ str_int max_time_minutes
   ++ " mins

---

")%string.

Definition heading `{Formatting} (locations : list string)
  (activity_type : string) (meeting_datetime : datetime)
  (meeting_area mood notes : option string) : string :=
  ("# 🎯 Venue Recommendations

**Meeting Details:**
• **📅 When**: "
   ++ strftime_long meeting_datetime
   ++ "
• **🎪 Activity**: "
   ++ (if is_any activity_type then "Any (flexible)" else activity_type)
   ++ "
• **🎭 Mood/Objective**: "
   ++ (match specific mood with Some m => m | None => "Any (open to suggestions)" end)
   ++ "
• **👥 Group**: "
   ++ str_int (Z.of_nat (List.length locations))
   ++ " people
"
   ++ (match provided meeting_area with Some a => "• **📍 Area**: " ++ a | None => "• **🎯 Strategy**: Halfway between all locations" end)
   ++ "
"
   ++ (match noted notes with Some n => "• **📝 Notes**: " ++ n | None => "" end)
   ++ "

")%string.

Definition tips `{Formatting} (meeting_datetime : datetime)
  (mood : option string) : string :=
  ("

💡 **Tips**: Venues ranked by convenience and fairness. All times calculated to arrive by "
   ++ strftime_clock meeting_datetime
   ++ ". "
   ++ (match specific mood with Some m => "Venues selected to match your " ++ lower m ++ " vibe!" | None => "Versatile venues selected to accommodate different preferences!" end)
   ++ "
")%string.

(** A call to one of the two services. *)
Inductive call :=
| TextCall (r : chat_request)
| MapsCall (r : request).

(** One turn of the per-person loop: the line shown, the dictionary of
    the lookup and the requests it issued. *)
Definition person `{Formatting} (mw : Directions.world)
  (venue_address : string) (meeting_datetime : datetime)
  (turn : nat * (string * string)) : string * leg * list request :=
  let out := _get_travel_time_and_route mw (fst (snd turn)) venue_address
               (actual_transport (snd (snd turn))) (Some meeting_datetime) in
  (travel_detail (fst turn + 1) (snd (snd turn)) (fst out), fst out, snd out).

(** [enumerate(zip(locations, transport_preferences))] *)
Definition turns (locations transport_preferences : list string)
  : list (nat * (string * string)) :=
  let pairs := combine locations transport_preferences in
  combine (seq 0 (List.length pairs)) pairs.

Definition people `{Formatting} (mw : Directions.world)
  (locations transport_preferences : list string) (venue_address : string)
  (meeting_datetime : datetime) : list (string * leg * list request) :=
  map (person mw venue_address meeting_datetime)
      (turns locations transport_preferences).

(** The body of the loop over the venues: the entry appended to
    [detailed_results], or the exception raised, and the calls made. *)
Definition process_venue `{Formatting} (tw : Followup.world)
  (mw : Directions.world) (locations : list string) (activity_type : string)
  (transport_preferences : list string) (meeting_datetime : datetime)
  (mood : option string) (venue_line : string)
  : result scored * list call :=
  let candidate := split_fields venue_line in
  let description :=
    venue_description tw activity_type mood (venue_name candidate) in
  let everyone := people mw locations transport_preferences
                    (venue_address candidate) meeting_datetime in
  let legs := map (fun t => snd (fst t)) everyone in
  let calls :=
    TextCall (description_request activity_type mood (venue_name candidate))
    :: map MapsCall (List.concat (map snd everyone)) in
  (bind (avg_time_minutes (List.length locations)
                          (total_duration_seconds legs))
        (fun avg =>
           ret (suitability_score legs,
                venue_recommendation (venue_name candidate)
                  (venue_address candidate) description
                  (map (fun t => fst (fst t)) everyone)
                  avg (max_time_minutes (max_duration_seconds legs)))),
   calls).

(** The loop over the venues; it stops at the first exception. *)
Fixpoint process_venues `{Formatting} (tw : Followup.world)
  (mw : Directions.world) (locations : list string) (activity_type : string)
  (transport_preferences : list string) (meeting_datetime : datetime)
  (mood : option string) (venue_lines : list string)
  : result (list scored) * list call :=
  match venue_lines with
  | [] => (ret [], [])
  | venue_line :: rest =>
      let one := process_venue tw mw locations activity_type
                   transport_preferences meeting_datetime mood venue_line in
      match fst one with
      | inl e => (inl e, snd one)
      | inr entry =>
          let others := process_venues tw mw locations activity_type
                          transport_preferences meeting_datetime mood rest in
          (match fst others with
           | inl e => inl e
           | inr entries => inr (entry :: entries)
           end,
           snd one ++ snd others)
      end
  end.

Definition key_not_found : string :=
  (cross_mark ++ " OPENAI_API_KEY not found in environment variables.")%string.

Definition error_text `{Runtime} (e : exn) : string :=
  (cross_mark ++ " Error getting detailed recommendations: " ++ str_exn e)%string.

(** [_get_detailed_venue_recommendations_with_real_times]: the text
    returned, and the calls made in order. *)
Definition _get_detailed_venue_recommendations_with_real_times `{Formatting}
  (tw : Followup.world) (mw : Directions.world)
  (locations : list string) (activity_type : string)
  (transport_preferences : list string) (meeting_datetime : datetime)
  (meeting_area mood notes : option string) : string * list call :=
  match credential (OPENAI_API_KEY tw) with
  | None => (key_not_found, [])
  | Some key =>
      match make_client tw key with
      | inl e => (error_text e, [])
      | inr _ =>
          let asked := venue_request locations activity_type meeting_area
                         mood notes in
          match create tw asked with
          | inl e => (error_text e, [TextCall asked])
          | inr content =>
              let raw := venue_suggestions content in
              let done := process_venues tw mw locations activity_type
                            transport_preferences meeting_datetime mood
                            (selected_lines raw) in
              (match fst done with
               | inl e => error_text e
               | inr detailed_results =>
                   final_response
                     (heading locations activity_type meeting_datetime
                        meeting_area mood notes)
                     (tips meeting_datetime mood) detailed_results
               end,
               TextCall asked :: snd done)
          end
      end
  end.

(** [get_recommendations] *)
Definition get_recommendations `{Formatting} (tw : Followup.world)
  (mw : Directions.world) (locations : list string) (activity : string)
  (meeting_area mood notes : option string)
  (meeting_datetime : option datetime)
  (transport_preferences : option (list string)) : string * list call :=
  _get_detailed_venue_recommendations_with_real_times tw mw locations activity
    (effective_preferences locations transport_preferences)
    (match meeting_datetime with Some d => d | None => now end)
    meeting_area mood notes.

(** Whether the directions credential is set. *)
Definition maps_available (mw : Directions.world) : bool :=
  match credential (GOOGLE_MAPS_API_KEY mw) with
  | Some _ => true
  | None => false
  end.

(** The calls to each service. *)
Definition text_calls (calls : list call) : list chat_request :=
  flat_map (fun c => match c with TextCall r => [r] | MapsCall _ => [] end)
           calls.

Definition maps_calls (calls : list call) : list request :=
  flat_map (fun c => match c with MapsCall r => [r] | TextCall _ => [] end)
           calls.

End Recommender.

(** ** The application around the recommender *)

Module App.
Import PyStr Py Orchestrator Followup Recommender.

(** *** Group size *)

Inductive click := Add | Remove.

(** The [on_click] callbacks of the two buttons. *)
Definition on_click (c : click) (num_users : Z) : Z :=
  match c with
  | Add => Z.min 4 (num_users + 1)
  | Remove => Z.max 2 (num_users - 1)
  end.

(** *** Validation of the form *)

(** [l[:n]] *)
Definition slice_to {A : Type} (n : Z) (l : list A) : list A :=
  if (0 <=? n)%Z then firstn (Z.to_nat n) l
  else firstn (List.length l - Z.to_nat (- n)) l.

(** What a submission leads to: an error shown, or a call of
    [get_recommendations] with these locations, area and preferences. *)
Inductive outcome :=
| Rejected (message : string)
| Requested (locations : list string) (meeting_area : option string)
            (transport_preferences : list string).

Definition submit (num_users : Z) (locations transport_preferences : list string)
  (specify_area : bool) (meeting_area activity : string) : outcome :=
  let valid_locations :=
    filter (fun loc => truthy (strip loc)) (slice_to num_users locations) in
  let valid_transport_prefs := slice_to num_users transport_preferences in
  if (Z.of_nat (List.length valid_locations) <? num_users)%Z then
    Rejected ("Please enter all " ++ str_int num_users
              ++ " starting locations. "
              ++ str_int (num_users - Z.of_nat (List.length valid_locations))
              ++ " location(s) missing.")%string
  else if specify_area && negb (truthy (strip meeting_area)) then
    Rejected "Please enter a preferred meeting area or uncheck the option to find venues at the geographic center."
  else if negb (truthy (strip activity)) then
    Rejected "Please select or specify an activity."
  else
    Requested valid_locations
              (if specify_area then Some meeting_area else None)
              valid_transport_prefs.

(** *** The session *)

Section Session.
Context {R : Runtime} {F : Formatting R}.

(** An entry of the conversation history of type ['query']. *)
Record query_turn := mk_turn {
  turn_locations : list string;
  turn_meeting_area : string;
  turn_activity : string;
  turn_mood : string;
  turn_notes : string;
  turn_meeting_datetime : datetime;
  turn_transport_preferences : list string;
  turn_response : string
}.

Inductive interaction :=
| QueryTurn (t : query_turn)
| FollowupTurn (query response : string).

Record session := mk_session {
  num_users : Z;
  recommendations : string;
  conversation_history : list interaction
}.

(** What [initialize_session_state] sets on a fresh session. *)
Definition fresh : session := mk_session 2 "" [].

(** The context built from a query turn. *)
Definition context_of (t : query_turn) : string :=
  ("PREVIOUS VENUE RECOMMENDATIONS:

Meeting Details:
- Locations: "
   ++ join ", " (turn_locations t)
   ++ "
- Activity: "
   ++ turn_activity t
   ++ "
- Mood: "
   ++ turn_mood t
   ++ "
- Meeting Area: "
   ++ turn_meeting_area t
   ++ "
- Date/Time: "
   ++ strftime_long (turn_meeting_datetime t)
   ++ "

"
   ++ turn_response t)%string.

Definition is_followup (i : interaction) : bool :=
  match i with
  | FollowupTurn _ _ => true
  | QueryTurn _ => false
  end.

(** The loop over the reversed history, with its [break]. *)
Fixpoint latest_query_context (reversed : list interaction) : string :=
  match reversed with
  | [] => EmptyString
  | QueryTurn t :: _ => context_of t
  | FollowupTurn _ _ :: rest => latest_query_context rest
  end.

(** The context handed to [handle_followup_query]. *)
Definition followup_context (history : list interaction) : string :=
  match rev history with
  | [] => EmptyString
  | QueryTurn t :: _ => context_of t
  | FollowupTurn _ _ :: _ => latest_query_context (rev history)
  end.

(** The fields of the form. *)
Record form := mk_form {
  form_locations : list string;
  form_transport_preferences : list string;
  form_specify_area : bool;
  form_meeting_area : string;
  form_meeting_datetime : datetime;
  form_activity : string;
  form_mood : string;
  form_notes : string
}.

Inductive event :=
| Click (c : click)
| Submit (f : form)
| Ask (followup_query : string).

Variable tw : Followup.world.
Variable mw : Directions.world.

(** One run of the script for one event.  The history keeps the list
    of preferences it handed to [get_recommendations], which that call
    extends in place. *)
Definition handle (s : session) (ev : event) : session :=
  match ev with
  | Click c =>
      mk_session (on_click c (num_users s)) (recommendations s)
                 (conversation_history s)
  | Submit f =>
      match submit (num_users s) (form_locations f)
                   (form_transport_preferences f) (form_specify_area f)
                   (form_meeting_area f) (form_activity f) with
      | Rejected _ => s
      | Requested valid_locations area valid_transport_prefs =>
          let response :=
            fst (get_recommendations tw mw valid_locations (form_activity f)
                   area (Some (form_mood f)) (Some (form_notes f))
                   (Some (form_meeting_datetime f))
                   (Some valid_transport_prefs)) in
          mk_session (num_users s) response
            (conversation_history s
             ++ [QueryTurn
                   (mk_turn valid_locations
                      (if form_specify_area f then form_meeting_area f
                       else "Geographic center")
                      (form_activity f) (form_mood f) (form_notes f)
                      (form_meeting_datetime f)
                      (effective_preferences valid_locations
                         (Some valid_transport_prefs))
                      response)])
      end
  | Ask followup_query =>
      if truthy (recommendations s) && truthy (strip followup_query) then
        let answer :=
          fst (_handle_followup_async tw followup_query
                 (followup_context (conversation_history s))) in
        mk_session (num_users s) (recommendations s)
          (conversation_history s ++ [FollowupTurn followup_query answer])
      else s
  end.

Definition run (events : list event) : session :=
  fold_left handle events fresh.

End Session.

End App.

(** ** Sample inputs for the whole recommendation *)

Module MoreSamples.
Import PyStr Py Samples Recommender.

(** Title case and the long date format for the examples: the text
    itself and the timestamp in decimal. *)
Definition sample_formatting : Formatting sample_runtime := {|
  title := fun s => s;
  strftime_long := (str_int : @datetime sample_runtime -> string)
|}.

(** A text-generation service whose every call raises. *)
Definition failing : Followup.world :=
  Followup.mk_world (Some "sk-test") (fun _ => ret tt)
                    (fun _ => raise (APIError "Connection error.")).

(** A form for two people, filled in. *)
Definition sample_form : @App.form sample_runtime :=
  App.mk_form ["Camden"; "Soho"] ["walking"; "Any"] false ""
              (86400%Z : @datetime sample_runtime) "Coffee/Cafe" "Any" "".

End MoreSamples.

(** * Properties of the parser *)

Module ParserFacts.
Import PyStr Py Parser Samples.

Lemma filter_lines_acc (lines acc : list string) :
  fold_left (fun acc line => if acceptable line then acc ++ [line] else acc)
            lines acc
  = acc ++ filter acceptable lines.
Proof.
  revert acc; induction lines as [| line lines IH]; intros acc; simpl.
  - now rewrite app_nil_r.
  - rewrite IH. destruct (acceptable line); [| reflexivity].
    now rewrite <- app_assoc.
Qed.

Lemma filter_lines_filter (lines : list string) :
  filter_lines lines = filter acceptable lines.
Proof. unfold filter_lines. now rewrite filter_lines_acc. Qed.

Lemma mem_In (x : string) (xs : list string) : mem x xs = true <-> In x xs.
Proof.
  unfold mem. rewrite existsb_exists. split.
  - intros [y [Hy Heq]]. apply String.eqb_eq in Heq. now subst.
  - intros H. exists x. split; [assumption | apply String.eqb_refl].
Qed.

Lemma mem_false (x : string) (xs : list string) :
  mem x xs = false <-> ~ In x xs.
Proof.
  rewrite <- mem_In. destruct (mem x xs); split; congruence.
Qed.

Lemma absent_snoc (lines rest : list string) (f : string) :
  ~ In f rest ->
  filter (absent (lines ++ [f])) rest = filter (absent lines) rest.
Proof.
  intros Hf. apply filter_ext_in. intros g Hg. unfold absent, mem.
  rewrite existsb_app. simpl. rewrite orb_false_r.
  destruct (String.eqb_spec g f) as [-> | _]; [contradiction |].
  now rewrite orb_false_r.
Qed.

(** The loop appends, in order, the fallbacks that are not yet present,
    until five lines are reached. *)
Lemma add_fallbacks_shape (fallbacks : list string) :
  NoDup fallbacks ->
  forall lines, List.length lines <= 5 ->
  add_fallbacks fallbacks lines
  = lines ++ firstn (5 - List.length lines) (filter (absent lines) fallbacks).
Proof.
  induction 1 as [| f rest Hnotin Hnodup IH]; intros lines Hlen.
  - cbn [add_fallbacks filter]. now rewrite firstn_nil, app_nil_r.
  - cbn [add_fallbacks filter].
    destruct (5 <=? List.length lines) eqn:Hfull.
    + apply Nat.leb_le in Hfull.
      replace (5 - List.length lines) with 0 by lia.
      cbn [firstn]. now rewrite app_nil_r.
    + apply Nat.leb_gt in Hfull. unfold absent at 1.
      destruct (mem f lines) eqn:Hmem; cbn [negb].
      * now apply IH.
      * rewrite IH by (rewrite length_app; cbn [List.length]; lia).
        rewrite absent_snoc by assumption.
        rewrite length_app. cbn [List.length].
        destruct (5 - List.length lines) as [| k] eqn:Hk; [lia |].
        replace (5 - (List.length lines + 1)) with k by lia.
        cbn [firstn]. now rewrite <- app_assoc.
Qed.

(** A duplicate-free list of fallbacks has at most [length lines]
    entries that are already present. *)
Lemma absent_count (fallbacks lines : list string) :
  NoDup fallbacks ->
  List.length fallbacks
  <= List.length lines + List.length (filter (absent lines) fallbacks).
Proof.
  intros Hnodup.
  assert (Hsplit : List.length fallbacks
                   = List.length (filter (fun f => mem f lines) fallbacks)
                     + List.length (filter (absent lines) fallbacks)).
  { clear Hnodup. induction fallbacks as [| f rest IH]; simpl; [reflexivity |].
    unfold absent at 1. destruct (mem f lines); simpl; lia. }
  assert (Hpresent : List.length (filter (fun f => mem f lines) fallbacks)
                     <= List.length lines).
  { apply NoDup_incl_length; [now apply NoDup_filter |].
    intros f Hf. apply filter_In in Hf. now apply mem_In. }
  lia.
Qed.

Lemma fallback_venues_NoDup : NoDup fallback_venues.
Proof.
  unfold fallback_venues.
  repeat (constructor; [simpl; intuition discriminate |]). constructor.
Qed.

Lemma top_up_length (lines : list string) :
  List.length (top_up lines)
  = if List.length lines <? 3 then 5 else List.length lines.
Proof.
  unfold top_up. destruct (List.length lines <? 3) eqn:Hfew; [| reflexivity].
  apply Nat.ltb_lt in Hfew.
  rewrite add_fallbacks_shape by (auto using fallback_venues_NoDup; lia).
  rewrite length_app, length_firstn.
  pose proof (absent_count fallback_venues lines fallback_venues_NoDup) as Hc.
  change (List.length fallback_venues) with 5 in Hc. lia.
Qed.

(** C2, as the code has it: the number of candidates returned is five
    when fewer than three or at least five lines survive the validity
    filter and the degraded fallback, and is the number of surviving
    lines (three or four) otherwise; it always lies between three and
    five. *)
Theorem parse_venues_count (raw : string) :
  List.length (parse_venues raw)
  = (if List.length (surviving_lines raw) <? 3 then 5
     else Nat.min 5 (List.length (surviving_lines raw)))
  /\ 3 <= List.length (parse_venues raw) <= 5.
Proof.
  unfold parse_venues, selected_lines.
  rewrite length_map, length_firstn, top_up_length.
  destruct (List.length (surviving_lines raw) <? 3) eqn:Hfew.
  - split; [reflexivity | lia].
  - apply Nat.ltb_ge in Hfew. split; [reflexivity | lia].
Qed.

(** C2, as stated, fails: three lines pass the validity filter and three
    candidates, not five, are returned. *)
Lemma parse_venues_three_not_five :
  List.length (filter_lines (venue_lines three_lines)) = 3
  /\ List.length (parse_venues three_lines) <> 5.
Proof. split; [reflexivity | vm_compute; discriminate]. Qed.

Lemma firstn_NoDup (n : nat) (l : list string) :
  NoDup l -> NoDup (firstn n l).
Proof.
  intros H. rewrite <- (firstn_skipn n l) in H.
  now apply NoDup_app_remove_r in H.
Qed.

Lemma firstn_incl (n : nat) (l : list string) : incl (firstn n l) l.
Proof.
  intros x Hx. rewrite <- (firstn_skipn n l). apply in_or_app. now left.
Qed.

Lemma surviving_two (raw a b : string) :
  filter_lines (venue_lines raw) = [a; b] -> surviving_lines raw = [a; b].
Proof. unfold surviving_lines. now intros ->. Qed.

(** C5, as the code has it: a text with no candidate line at all (no
    non-blank line holding a digit) yields exactly the five built-in
    venues, all distinct; a text with exactly two lines passing the
    validity filter yields those two followed by three built-in venues,
    distinct from one another and from the two lines. *)
Theorem parse_venues_fallbacks (raw : string) :
  (venue_lines raw = [] ->
   selected_lines raw = fallback_venues
   /\ parse_venues raw = map split_fields fallback_venues
   /\ NoDup (parse_venues raw)
   /\ List.length (parse_venues raw) = 5)
  /\ (forall a b : string,
      filter_lines (venue_lines raw) = [a; b] ->
      exists f1 f2 f3 : string,
        selected_lines raw = [a; b; f1; f2; f3]
        /\ parse_venues raw = map split_fields [a; b; f1; f2; f3]
        /\ incl [f1; f2; f3] fallback_venues
        /\ NoDup [f1; f2; f3]
        /\ ~ In f1 [a; b] /\ ~ In f2 [a; b] /\ ~ In f3 [a; b]).
Proof.
  split.
  - intros Hnone.
    assert (Hsel : selected_lines raw = fallback_venues).
    { unfold selected_lines, surviving_lines. rewrite Hnone. reflexivity. }
    unfold parse_venues. rewrite Hsel. repeat split.
    vm_compute.
    repeat (constructor; [simpl; intuition discriminate |]). constructor.
  - intros a b Htwo. apply surviving_two in Htwo.
    assert (Hsel : selected_lines raw
                   = [a; b] ++ firstn 3 (filter (absent [a; b]) fallback_venues)).
    { unfold selected_lines, top_up. rewrite Htwo. cbn [List.length Nat.ltb Nat.leb].
      rewrite add_fallbacks_shape
        by (auto using fallback_venues_NoDup; cbn [List.length]; lia).
      cbn [List.length Nat.sub]. apply firstn_all2.
      rewrite length_app, length_firstn. cbn [List.length]. lia. }
    pose proof (absent_count fallback_venues [a; b] fallback_venues_NoDup) as Hc.
    change (List.length fallback_venues) with 5 in Hc. cbn [List.length] in Hc.
    pose proof (firstn_NoDup 3 _
                  (NoDup_filter (absent [a; b]) fallback_venues_NoDup)) as Hnd.
    pose proof (firstn_incl 3 (filter (absent [a; b]) fallback_venues)) as Hin.
    assert (Hlen : List.length (firstn 3 (filter (absent [a; b]) fallback_venues)) = 3)
      by (rewrite length_firstn; lia).
    destruct (firstn 3 (filter (absent [a; b]) fallback_venues))
      as [| f1 [| f2 [| f3 [| f4 more]]]]; try discriminate Hlen.
    assert (Habsent : forall f, In f [f1; f2; f3] ->
                                In f fallback_venues /\ ~ In f [a; b]).
    { intros f Hf. apply Hin, filter_In in Hf. destruct Hf as [Hfb Hab].
      split; [assumption |]. apply mem_false.
      unfold absent in Hab. now destruct (mem f [a; b]). }
    exists f1, f2, f3. unfold parse_venues. rewrite Hsel.
    repeat split; try assumption.
    + intros f Hf. now apply Habsent.
    + apply Habsent. simpl; auto.
    + apply Habsent. simpl; auto.
    + apply Habsent. simpl; auto.
Qed.

(** The two parts of C5 at concrete texts: one without any digit, one
    with two accepted lines of which the second has the name and address
    of a built-in venue behind a different numbering. *)
Lemma parse_venues_fallbacks_witness :
  (selected_lines "No venues found" = fallback_venues
   /\ parse_venues "No venues found" = map split_fields fallback_venues
   /\ NoDup (parse_venues "No venues found")
   /\ List.length (parse_venues "No venues found") = 5)
  /\ exists f1 f2 f3 : string,
       selected_lines two_lines
       = [ "1. Cafe A - 12 High St, Camden, London NW1 7JE";
           "2. Sketch - 9 Conduit Street, Mayfair, London W1S 2XG";
           f1; f2; f3 ]
       /\ incl [f1; f2; f3] fallback_venues.
Proof.
  split.
  - apply (proj1 (parse_venues_fallbacks "No venues found")). reflexivity.
  - destruct (proj2 (parse_venues_fallbacks two_lines)
                "1. Cafe A - 12 High St, Camden, London NW1 7JE"
                "2. Sketch - 9 Conduit Street, Mayfair, London W1S 2XG"
                eq_refl)
      as (f1 & f2 & f3 & Hsel & _ & Hincl & _).
    exists f1, f2, f3. split; assumption.
Defined.

(** C5, as stated, fails on its first part: no line of this text passes
    the validity filter, yet the candidates returned are the rejected
    line followed by four built-in venues. *)
Lemma enumeration_not_fallbacks :
  filter_lines (venue_lines enumeration) = []
  /\ selected_lines enumeration
     = enumeration :: firstn 4 fallback_venues
  /\ parse_venues enumeration <> map split_fields fallback_venues.
Proof.
  split; [reflexivity |]. split; [reflexivity |]. vm_compute. discriminate.
Qed.

Lemma fields_free (p : ascii -> bool) (s : string) :
  Forall (fun piece => any p piece = false) (fields p s).
Proof.
  induction s as [| c r IH]; simpl.
  - repeat constructor.
  - destruct (p c) eqn:Hc.
    + constructor; [reflexivity | assumption].
    + destruct (fields p r) as [| h t].
      * repeat constructor. simpl. now rewrite Hc.
      * inversion IH; subst. constructor; [| assumption].
        simpl. now rewrite Hc.
Qed.

(** The tokens of [split()] are non-empty and free of whitespace. *)
Lemma split_ws_tokens (s : string) :
  Forall (fun t => truthy t = true /\ any isspace t = false) (split_ws s).
Proof.
  unfold split_ws. apply Forall_forall. intros t Ht.
  apply filter_In in Ht. destruct Ht as [Hin Hne]. split; [assumption |].
  pose proof (fields_free isspace s) as Hfree.
  rewrite Forall_forall in Hfree. now apply Hfree.
Qed.

(** *** The filter against the specification's counts *)

Section AnyTables.
Variables isdigit isspace : N -> bool.

Lemma count_commas (line : list N) :
  AnyText.comma_count line = FilterSpec.commas line.
Proof.
  unfold AnyText.comma_count, FilterSpec.commas, AnyText.comma.
  induction line as [| d rest IH]; [reflexivity |].
  cbn [AnyText.count filter]. rewrite IH, (N.eqb_sym 44 d).
  now destruct (N.eqb d 44).
Qed.

Lemma has_digit_nonempty (part : list N) :
  AnyText.has_digit isdigit part = true -> AnyText.nonempty part = true.
Proof. now destruct part. Qed.

(** Dropping the empty pieces does not change which pieces hold a digit. *)
Lemma split_digit_pieces (line : list N) :
  filter (AnyText.has_digit isdigit) (AnyText.split isspace line)
  = filter (AnyText.has_digit isdigit) (AnyText.fields isspace line).
Proof.
  unfold AnyText.split.
  induction (AnyText.fields isspace line) as [| part parts IH];
    [reflexivity |].
  cbn [filter]. destruct (AnyText.nonempty part) eqn:Hne.
  - cbn [filter]. now rewrite IH.
  - rewrite IH. destruct (AnyText.has_digit isdigit part) eqn:Hd;
      [| reflexivity].
    apply has_digit_nonempty in Hd. congruence.
Qed.

Lemma fields_nonempty (line : list N) : AnyText.fields isspace line <> [].
Proof.
  destruct line as [| c rest]; [discriminate |].
  cbn [AnyText.fields]. destruct (isspace c); [discriminate |].
  destruct (AnyText.fields isspace rest); discriminate.
Qed.

(** The scan agrees with the pieces: the first piece goes on from what
    was seen, each later piece starts afresh. *)
Lemma digit_tokens_fields (line : list N) (seen : bool) :
  FilterSpec.digit_tokens isdigit isspace seen line
  = match AnyText.fields isspace line with
    | first :: others =>
        (if seen || AnyText.has_digit isdigit first then 1 else 0)
        + List.length (filter (AnyText.has_digit isdigit) others)
    | [] => 0
    end.
Proof.
  revert seen. induction line as [| c rest IH]; intros seen.
  - cbn. now rewrite orb_false_r, Nat.add_0_r.
  - cbn [FilterSpec.digit_tokens AnyText.fields].
    destruct (isspace c).
    + rewrite IH. cbn [AnyText.has_digit existsb orb filter].
      rewrite orb_false_r.
      destruct (AnyText.fields isspace rest) as [| first others];
        [reflexivity |].
      cbn [orb filter].
      destruct (AnyText.has_digit isdigit first); reflexivity.
    + rewrite IH. pose proof (fields_nonempty rest) as Hne.
      destruct (AnyText.fields isspace rest) as [| first others];
        [congruence |].
      cbn [AnyText.has_digit existsb]. now rewrite orb_assoc.
Qed.

Lemma count_digit_tokens (line : list N) :
  AnyText.number_sequences isdigit isspace line
  = FilterSpec.digit_tokens isdigit isspace false line.
Proof.
  unfold AnyText.number_sequences.
  rewrite split_digit_pieces, digit_tokens_fields.
  pose proof (fields_nonempty line) as Hne.
  destruct (AnyText.fields isspace line) as [| first others]; [congruence |].
  cbn [filter orb].
  destruct (AnyText.has_digit isdigit first); reflexivity.
Qed.

Lemma any_filter_lines_acc (lines acc : list (list N)) :
  fold_left (fun acc line =>
               if AnyText.acceptable isdigit isspace line
               then acc ++ [line] else acc)
            lines acc
  = acc ++ filter (AnyText.acceptable isdigit isspace) lines.
Proof.
  revert acc; induction lines as [| line lines IH]; intros acc; simpl.
  - now rewrite app_nil_r.
  - rewrite IH. destruct (AnyText.acceptable isdigit isspace line);
      [| reflexivity].
    now rewrite <- app_assoc.
Qed.

Lemma any_filter_lines_filter (lines : list (list N)) :
  AnyText.filter_lines isdigit isspace lines
  = filter (AnyText.acceptable isdigit isspace) lines.
Proof. unfold AnyText.filter_lines. now rewrite any_filter_lines_acc. Qed.

Lemma any_acceptable_spec (line : list N) :
  AnyText.acceptable isdigit isspace line = true
  <-> FilterSpec.commas line <= 10
      /\ FilterSpec.digit_tokens isdigit isspace false line <= 8
      /\ List.length line <= 200.
Proof.
  unfold AnyText.acceptable.
  rewrite count_commas, count_digit_tokens.
  rewrite !andb_true_iff, !Nat.leb_le. tauto.
Qed.

End AnyTables.

(** *** The modelled range inside all of Unicode *)

Lemma comma_code (c : ascii) :
  Ascii.eqb c "," = N.eqb (N_of_ascii c) 44.
Proof.
  destruct c as [[] [] [] [] [] [] [] []]; reflexivity.
Qed.

Lemma on_codes_code (p : ascii -> bool) (c : ascii) :
  AnyText.on_codes p (N_of_ascii c) = p c.
Proof. unfold AnyText.on_codes. now rewrite ascii_N_embedding. Qed.

Lemma codes_count (s : string) :
  comma_count s = AnyText.comma_count (AnyText.codes s).
Proof.
  unfold comma_count, AnyText.comma_count, AnyText.codes, AnyText.comma.
  induction s as [| c r IH]; [reflexivity |].
  cbn [count_char list_ascii_of_string map AnyText.count].
  now rewrite IH, comma_code.
Qed.

Lemma codes_length (s : string) :
  String.length s = List.length (AnyText.codes s).
Proof.
  unfold AnyText.codes. induction s as [| c r IH]; [reflexivity |].
  cbn [String.length list_ascii_of_string map List.length]. now rewrite IH.
Qed.

Lemma codes_fields (p : ascii -> bool) (s : string) :
  map AnyText.codes (fields p s)
  = AnyText.fields (AnyText.on_codes p) (AnyText.codes s).
Proof.
  induction s as [| c r IH]; [reflexivity |].
  change (AnyText.codes (String c r)) with (N_of_ascii c :: AnyText.codes r).
  cbn [fields AnyText.fields]. rewrite on_codes_code, <- IH.
  destruct (p c); [reflexivity |].
  destruct (fields p r) as [| h t]; reflexivity.
Qed.

Lemma codes_has_digit (p : ascii -> bool) (s : string) :
  AnyText.has_digit (AnyText.on_codes p) (AnyText.codes s) = any p s.
Proof.
  unfold AnyText.has_digit, AnyText.codes.
  induction s as [| c r IH]; [reflexivity |].
  cbn [list_ascii_of_string map existsb any].
  now rewrite on_codes_code, IH.
Qed.

Lemma codes_digit_pieces (p : ascii -> bool) (pieces : list string) :
  List.length (filter (AnyText.has_digit (AnyText.on_codes p))
                      (map AnyText.codes pieces))
  = List.length (filter (any p) pieces).
Proof.
  induction pieces as [| piece pieces IH]; [reflexivity |].
  cbn [map filter]. rewrite codes_has_digit.
  destruct (any p piece); cbn [List.length]; now rewrite IH.
Qed.

Lemma any_truthy (p : ascii -> bool) (s : string) :
  any p s = true -> truthy s = true.
Proof. now destruct s. Qed.

Lemma codes_number_sequences (s : string) :
  number_sequences s
  = AnyText.number_sequences (AnyText.on_codes isdigit)
      (AnyText.on_codes isspace) (AnyText.codes s).
Proof.
  unfold number_sequences, AnyText.number_sequences.
  rewrite split_digit_pieces, <- codes_fields, codes_digit_pieces.
  unfold split_ws.
  induction (fields isspace s) as [| piece pieces IH]; [reflexivity |].
  cbn [filter]. destruct (truthy piece) eqn:Hne.
  - cbn [filter]. destruct (any isdigit piece); cbn [List.length];
      now rewrite IH.
  - rewrite IH. destruct (any isdigit piece) eqn:Hd; [| reflexivity].
    apply any_truthy in Hd. congruence.
Qed.

(** On the modelled range the filter of [Parser] is the filter over
    code points. *)
Lemma acceptable_codes (s : string) :
  acceptable s
  = AnyText.acceptable (AnyText.on_codes isdigit) (AnyText.on_codes isspace)
      (AnyText.codes s).
Proof.
  unfold acceptable, AnyText.acceptable.
  now rewrite codes_count, codes_number_sequences, codes_length.
Qed.

(** C6: the validity filter keeps a line exactly when it has at most ten
    commas, at most eight whitespace-delimited tokens holding a digit and
    at most two hundred characters, commas and tokens counted as the
    specification words them and not by the code's own counters; a line
    with twelve commas is never kept, with or without digits.  This
    holds for a line of any code points under any tables of digits and
    of whitespace, and for the lines of the modelled range, on which the
    filter of [Parser] is that same filter. *)
Theorem acceptable_iff (isdigit isspace : N -> bool) (codepoints : list N)
  (line : string) :
  (AnyText.acceptable isdigit isspace codepoints = true
   <-> FilterSpec.commas codepoints <= 10
       /\ FilterSpec.digit_tokens isdigit isspace false codepoints <= 8
       /\ List.length codepoints <= 200)
  /\ (forall lines : list (list N),
      In codepoints (AnyText.filter_lines isdigit isspace lines)
      <-> In codepoints lines
          /\ AnyText.acceptable isdigit isspace codepoints = true)
  /\ (FilterSpec.commas codepoints = 12 ->
      AnyText.acceptable isdigit isspace codepoints = false
      /\ forall lines : list (list N),
           ~ In codepoints (AnyText.filter_lines isdigit isspace lines))
  /\ acceptable line
     = AnyText.acceptable (AnyText.on_codes PyStr.isdigit)
         (AnyText.on_codes PyStr.isspace) (AnyText.codes line)
  /\ (acceptable line = true
      <-> comma_count line <= 10 /\ number_sequences line <= 8
          /\ String.length line <= 200)
  /\ (acceptable line = true
      <-> FilterSpec.commas (AnyText.codes line) <= 10
          /\ FilterSpec.digit_tokens (AnyText.on_codes PyStr.isdigit)
               (AnyText.on_codes PyStr.isspace) false (AnyText.codes line)
             <= 8
          /\ String.length line <= 200)
  /\ (forall lines : list string,
      In line (filter_lines lines) <-> In line lines /\ acceptable line = true)
  /\ (comma_count line = 12 ->
      acceptable line = false
      /\ forall lines : list string, ~ In line (filter_lines lines))
  /\ (FilterSpec.commas (AnyText.codes line) = 12 ->
      acceptable line = false
      /\ forall lines : list string, ~ In line (filter_lines lines))
  /\ acceptable twelve_commas = false.
Proof.
  pose proof (any_acceptable_spec isdigit isspace codepoints) as Hany.
  assert (Hanykeep : forall lines,
             In codepoints (AnyText.filter_lines isdigit isspace lines)
             <-> In codepoints lines
                 /\ AnyText.acceptable isdigit isspace codepoints = true).
  { intros lines. rewrite any_filter_lines_filter. apply filter_In. }
  assert (Hiff : acceptable line = true
                 <-> comma_count line <= 10 /\ number_sequences line <= 8
                     /\ String.length line <= 200).
  { unfold acceptable. rewrite !andb_true_iff, !Nat.leb_le. tauto. }
  assert (Hspec : acceptable line = true
                  <-> FilterSpec.commas (AnyText.codes line) <= 10
                      /\ FilterSpec.digit_tokens
                           (AnyText.on_codes PyStr.isdigit)
                           (AnyText.on_codes PyStr.isspace) false
                           (AnyText.codes line) <= 8
                      /\ String.length line <= 200).
  { rewrite acceptable_codes, any_acceptable_spec, <- codes_length.
    reflexivity. }
  assert (Hkeep : forall lines, In line (filter_lines lines)
                                <-> In line lines /\ acceptable line = true).
  { intros lines. rewrite filter_lines_filter. apply filter_In. }
  split; [exact Hany |]. split; [exact Hanykeep |]. split.
  { intros Htwelve. split.
    - apply not_true_is_false. intros Hacc. apply Hany in Hacc. lia.
    - intros lines Hin. apply Hanykeep in Hin. destruct Hin as [_ Hacc].
      apply Hany in Hacc. lia. }
  split; [apply acceptable_codes |].
  split; [exact Hiff |]. split; [exact Hspec |]. split; [exact Hkeep |].
  split.
  { intros Htwelve. split.
    - apply not_true_is_false. intros Hacc. apply Hiff in Hacc. lia.
    - intros lines Hin. apply Hkeep in Hin. destruct Hin as [_ Hacc].
      apply Hiff in Hacc. lia. }
  split; [| reflexivity].
  intros Htwelve. split.
  - apply not_true_is_false. intros Hacc. apply Hspec in Hacc. lia.
  - intros lines Hin. apply Hkeep in Hin. destruct Hin as [_ Hacc].
    apply Hspec in Hacc. lia.
Qed.

End ParserFacts.

(** * Properties of the directions client *)

Module DirectionsFacts.
Import PyStr Py Directions Unquote Samples.

Lemma all_append (p : ascii -> bool) (s t : string) :
  all p (s ++ t) = all p s && all p t.
Proof.
  induction s as [| c r IH]; simpl; [reflexivity |].
  now rewrite IH, andb_assoc.
Qed.

Lemma hex_digit_safe (n : nat) : url_char (hex_digit n) = true.
Proof.
  unfold hex_digit.
  do 16 (destruct n as [| n]; [reflexivity |]).
  simpl. now destruct n.
Qed.

Lemma always_safe_small (b : nat) : always_safe b = true -> b < 256.
Proof.
  unfold always_safe. rewrite !orb_true_iff, !andb_true_iff.
  rewrite !Nat.leb_le, !Nat.eqb_eq. lia.
Qed.

Lemma quote_byte_safe (b : nat) : all url_char (quote_byte b) = true.
Proof.
  unfold quote_byte. destruct (always_safe b) eqn:Hsafe.
  - simpl. unfold url_char.
    rewrite nat_ascii_embedding by now apply always_safe_small.
    now rewrite Hsafe.
  - destruct (b =? 32); [reflexivity |].
    unfold percent. simpl. now rewrite !hex_digit_safe.
Qed.

Lemma quote_plus_safe (s : string) : all url_char (quote_plus s) = true.
Proof.
  induction s as [| c r IH]; [reflexivity |].
  cbn [quote_plus]. rewrite all_append, IH, andb_true_r.
  unfold utf8. destruct (nat_of_ascii c <? 128); cbn [map String.concat].
  - apply quote_byte_safe.
  - now rewrite !all_append, !quote_byte_safe.
Qed.

(** Reading back the quoted form of one character gives its bytes. *)
Lemma unquote_char (c : ascii) (rest : string) :
  unquote_bytes (String.concat "" (map quote_byte (utf8 c)) ++ rest)
  = utf8 c ++ unquote_bytes rest.
Proof.
  destruct c as [[] [] [] [] [] [] [] []]; reflexivity.
Qed.

(** Decoding the bytes of one character gives the character. *)
Lemma decode_char (c : ascii) (bs : list nat) :
  utf8_decode (utf8 c ++ bs) = String c (utf8_decode bs).
Proof.
  destruct c as [[] [] [] [] [] [] [] []]; reflexivity.
Qed.

(** Quoting loses nothing: the quoted text reads back as the text. *)
Lemma unquote_bytes_quote (s : string) :
  utf8_decode (unquote_bytes (quote_plus s)) = s.
Proof.
  induction s as [| c r IH]; [reflexivity |].
  cbn [quote_plus]. rewrite unquote_char, decode_char. now rewrite IH.
Qed.











End DirectionsFacts.

(** * Properties of the follow-up responder *)

Module FollowupFacts.
Import PyStr Py Followup Samples.

(** C1, as the code has it: with an empty or whitespace-only context the
    responder makes no call only when the credential is missing (or the
    client cannot be built), and then returns the matching error text;
    with the credential it issues exactly one text-generation call, whose
    user message is the fixed template, around the question, that asks
    for recommendations first, and it returns what the service generated
    (a fixed placeholder when that is empty, an error text when the call
    raises). *)
Theorem followup_without_context `{Runtime} (w : world)
  (query context : string) :
  truthy (strip context) = false ->
  let out := _handle_followup_async w query context in
  let req := mk_chat "gpt-4o-mini"
               [("system", system_prompt);
                ("user", prompt_without_context query)]
               800 (3 # 10) in
  (credential (OPENAI_API_KEY w) = None -> out = (key_missing, []))
  /\ (forall (key : string) (e : exn),
      credential (OPENAI_API_KEY w) = Some key ->
      make_client w key = inl e ->
      out = (("Error processing question: " ++ str_exn e)%string, []))
  /\ (forall key : string,
      credential (OPENAI_API_KEY w) = Some key ->
      make_client w key = inr tt ->
      snd out = [req]
      /\ (forall content : string,
          create w req = inr (Some content) -> truthy content = true ->
          fst out = content)
      /\ (create w req = inr None \/ create w req = inr (Some "") ->
          fst out = "No response received from API")
      /\ (forall e : exn,
          create w req = inl e ->
          fst out = ("Error processing question: " ++ str_exn e)%string)).
Proof.
  intros Hblank out req.
  assert (Hreq : followup_request query context = req).
  { unfold followup_request, full_prompt. now rewrite Hblank. }
  subst out. unfold _handle_followup_async.
  destruct (credential (OPENAI_API_KEY w)) as [key |].
  - split; [discriminate |]. split.
    + intros key' e [= <-] ->. reflexivity.
    + intros key' [= <-] ->. rewrite Hreq. cbn [fst snd].
      split; [reflexivity |]. split; [| split].
      * intros content -> ->. reflexivity.
      * intros [-> | ->]; reflexivity.
      * intros e ->. reflexivity.
  - split; [reflexivity |]. split; discriminate.
Qed.

(** The amended C1 at a whitespace-only context: one call, carrying the
    template, and the generated text as the answer. *)
Lemma followup_without_context_witness :
  truthy (strip "  ") = false
  /\ @_handle_followup_async sample_runtime no_openai_key "Is it quiet?" "  "
     = (key_missing, [])
  /\ snd (@_handle_followup_async sample_runtime answering "Is it quiet?" "  ")
     = [mk_chat "gpt-4o-mini"
          [("system", system_prompt);
           ("user", prompt_without_context "Is it quiet?")]
          800 (3 # 10)]
  /\ fst (@_handle_followup_async sample_runtime answering "Is it quiet?" "  ")
     = "Happy to help!".
Proof.
  split; [reflexivity |].
  pose proof (@followup_without_context sample_runtime no_openai_key
                "Is it quiet?" "  " eq_refl) as (Hnone & _).
  pose proof (@followup_without_context sample_runtime answering
                "Is it quiet?" "  " eq_refl) as (_ & _ & Hsome).
  split; [exact (Hnone eq_refl) |].
  destruct (Hsome "sk-test" eq_refl eq_refl) as (Hcalls & Hanswer & _).
  split; [exact Hcalls |].
  exact (Hanswer "Happy to help!" eq_refl eq_refl).
Defined.

(** C1, as stated, fails: with the credential present an empty context
    still leads to one text-generation call, and the answer is the
    generated text, not the template. *)
Lemma followup_empty_context_calls :
  let out := @_handle_followup_async sample_runtime answering
               "Is it quiet?" "" in
  List.length (snd out) = 1
  /\ fst out = "Happy to help!"
  /\ fst out <> prompt_without_context "Is it quiet?".
Proof.
  intros out. split; [reflexivity |]. split; [reflexivity |].
  vm_compute. discriminate.
Qed.

End FollowupFacts.

(** * Properties of the ranker *)

Module RankerFacts.
Import PyStr Py Directions Ranker FairnessSpec Samples.

Lemma max_of_nonneg (ds : list Z) : (0 <= max_of ds)%Z.
Proof. induction ds as [| d ds IH]; simpl; lia. Qed.

(** The two counters after the loop, from any total and any longest
    duration that is not negative. *)
Lemma tally_from (legs : list leg) (total longest : Z) :
  (0 <= longest)%Z ->
  fold_left add_leg legs (total, longest)
  = ((total + sum_of (map counted legs))%Z,
     Z.max longest (max_of (map counted legs))).
Proof.
  revert total longest.
  induction legs as [| l legs IH]; intros total longest Hlongest;
    cbn [fold_left map].
  - simpl. f_equal; lia.
  - pose proof (max_of_nonneg (map counted legs)) as Hpos.
    unfold add_leg at 2. unfold counted at 1 3.
    destruct (raw_duration_seconds l) as [d |]; cbn [fst snd];
      rewrite IH by lia; simpl; f_equal; lia.
Qed.

Lemma total_is_sum (legs : list leg) :
  total_duration_seconds legs = sum_of (map counted legs).
Proof.
  unfold total_duration_seconds, tally. now rewrite tally_from by lia.
Qed.

Lemma longest_is_max (legs : list leg) :
  max_duration_seconds legs = max_of (map counted legs).
Proof.
  unfold max_duration_seconds, tally. rewrite tally_from by lia. cbn [snd].
  pose proof (max_of_nonneg (map counted legs)). lia.
Qed.

Lemma max_of_upper (ds : list Z) (d : Z) : In d ds -> (d <= max_of ds)%Z.
Proof.
  induction ds as [| x ds IH]; simpl; [contradiction |].
  intros [-> | Hin]; [lia |]. specialize (IH Hin). lia.
Qed.

Lemma max_of_attained (ds : list Z) :
  ds <> [] -> Forall (fun d => 0 <= d)%Z ds -> In (max_of ds) ds.
Proof.
  induction ds as [| x ds IH]; [congruence |].
  intros _ Hpos. inversion Hpos as [| ? ? Hx Hrest]; subst.
  destruct ds as [| y ds].
  - left. simpl. lia.
  - assert (Hin : In (max_of (y :: ds)) (y :: ds)) by (apply IH; congruence).
    change (max_of (x :: y :: ds)) with (Z.max x (max_of (y :: ds))).
    destruct (Z.max_spec x (max_of (y :: ds))) as [[_ ->] | [_ ->]];
      [right; assumption | left; reflexivity].
Qed.

Lemma sum_of_nonneg (ds : list Z) :
  Forall (fun d => 0 <= d)%Z ds -> (0 <= sum_of ds)%Z.
Proof. induction 1; simpl; lia. Qed.

Lemma counted_nonneg (legs : list leg) :
  (forall l d, In l legs -> raw_duration_seconds l = Some d -> (0 <= d)%Z) ->
  Forall (fun d => 0 <= d)%Z (map counted legs).
Proof.
  intros Hpos. apply Forall_forall. intros d Hd.
  apply in_map_iff in Hd. destruct Hd as [l [<- Hl]].
  unfold counted. destruct (raw_duration_seconds l) as [x |] eqn:Hraw;
    [now apply (Hpos l) | lia].
Qed.

(** C3: the score of a venue is one and a half times the greatest
    counted duration plus the sum of the counted durations, a leg
    without an authoritative duration counting for 0 in both; legs of
    600 and 1200 seconds score 3600, legs of 300 and 300 seconds score
    1050, and sorting puts the second venue first. *)
Theorem score_formula (legs : list leg) :
  (forall l d, In l legs -> raw_duration_seconds l = Some d -> (0 <= d)%Z) ->
  let ds := map counted legs in
  (suitability_score legs
   == (3 # 2) * inject_Z (max_of ds) + inject_Z (sum_of ds))%Q
  /\ (forall d, In d ds -> (d <= max_of ds)%Z)
  /\ (legs <> [] -> In (max_of ds) ds)
  /\ (forall l, In l legs -> raw_duration_seconds l = None -> counted l = 0%Z)
  /\ (suitability_score [timed 600; timed 1200] == 3600)%Q
  /\ (suitability_score [timed 300; timed 300] == 1050)%Q
  /\ venue_blocks [(suitability_score [timed 600; timed 1200], "first");
                   (suitability_score [timed 300; timed 300], "second")]
     = ["second"; "first"].
Proof.
  intros Hpos ds. split.
  { unfold suitability_score. rewrite total_is_sum, longest_is_max.
    fold ds. ring. }
  split; [apply max_of_upper |]. split.
  { intros Hne. apply max_of_attained.
    - subst ds. destruct legs; [congruence | discriminate].
    - now apply counted_nonneg. }
  split; [intros l _ Hraw; unfold counted; now rewrite Hraw |].
  repeat split; reflexivity.
Qed.

(** The formula of C3 at a venue with one degraded leg between two
    timed ones. *)
Lemma score_formula_witness :
  (suitability_score [timed 600; untimed; timed 1200]
   == (3 # 2) * inject_Z 1200 + inject_Z 1800)%Q.
Proof.
  refine (proj1 (score_formula [timed 600; untimed; timed 1200] _)).
  intros l d [<- | [<- | [<- | []]]] [= <-]; lia.
Defined.

(** C9: the average shown is the sum of the counted durations divided,
    rounding down, by the number of participants and then by 60, and the
    longest journey shown is the greatest counted duration divided,
    rounding down, by 60; durations of 90 and 150 seconds for two
    participants show 2 and 2. *)
Theorem summary_minutes (participants : nat) (legs : list leg) :
  List.length legs <= participants ->
  (forall l d, In l legs -> raw_duration_seconds l = Some d -> (0 <= d)%Z) ->
  let ds := map counted legs in
  avg_time_minutes participants (total_duration_seconds legs)
  = ret (sum_of ds / Z.of_nat participants / 60)%Z
  /\ max_time_minutes (max_duration_seconds legs) = (max_of ds / 60)%Z
  /\ avg_time_minutes 2 (total_duration_seconds [timed 90; timed 150])
     = ret 2%Z
  /\ max_time_minutes (max_duration_seconds [timed 90; timed 150]) = 2%Z.
Proof.
  intros Hlen Hpos ds.
  pose proof (sum_of_nonneg _ (counted_nonneg legs Hpos)) as Hsum.
  pose proof (max_of_nonneg ds) as Hmax. fold ds in Hsum.
  rewrite total_is_sum, longest_is_max. fold ds.
  split; [| split; [| split; reflexivity]].
  - unfold avg_time_minutes. destruct (0 <? sum_of ds)%Z eqn:Hgt.
    + destruct (participants =? 0) eqn:Hzero; [| reflexivity].
      apply Nat.eqb_eq in Hzero. apply Z.ltb_lt in Hgt.
      assert (legs = []) by (destruct legs; [reflexivity | simpl in Hlen; lia]).
      subst legs. simpl in Hgt. lia.
    + apply Z.ltb_ge in Hgt. replace (sum_of ds) with 0%Z by lia.
      now rewrite Z.div_0_l.
  - unfold max_time_minutes. destruct (0 <? max_of ds)%Z eqn:Hgt;
      [reflexivity |].
    apply Z.ltb_ge in Hgt. now replace (max_of ds) with 0%Z by lia.
Qed.

(** C9 at three participants of whom one has a degraded leg. *)
Lemma summary_minutes_witness :
  avg_time_minutes 3 (total_duration_seconds [timed 90; untimed; timed 150])
  = ret 1%Z
  /\ max_time_minutes (max_duration_seconds [timed 90; untimed; timed 150])
     = 2%Z.
Proof.
  assert (Hlen : List.length [timed 90; untimed; timed 150] <= 3)
    by (simpl; lia).
  assert (Hpos : forall l d, In l [timed 90; untimed; timed 150] ->
                             raw_duration_seconds l = Some d -> (0 <= d)%Z).
  { intros l d [<- | [<- | [<- | []]]] [= <-]; lia. }
  destruct (summary_minutes 3 _ Hlen Hpos) as (Havg & Hmax & _).
  split; [exact Havg | exact Hmax].
Defined.

Lemma insert_perm (x : scored) (l : list scored) :
  Permutation (x :: l) (insert x l).
Proof.
  induction l as [| y rest IH]; simpl; [reflexivity |].
  destruct (Qle_bool (fst x) (fst y)); [reflexivity |].
  rewrite perm_swap. now apply perm_skip.
Qed.

Lemma sort_perm (l : list scored) : Permutation l (sort l).
Proof.
  induction l as [| x rest IH]; simpl; [reflexivity |].
  rewrite <- insert_perm. now apply perm_skip.
Qed.

Lemma by_score_trans (a b c : scored) :
  by_score a b -> by_score b c -> by_score a c.
Proof. unfold by_score. apply Qle_trans. Qed.

Lemma insert_sorted (x : scored) (l : list scored) :
  StronglySorted by_score l -> StronglySorted by_score (insert x l).
Proof.
  induction 1 as [| y rest Hsorted IH Hall]; simpl.
  - repeat constructor.
  - destruct (Qle_bool (fst x) (fst y)) eqn:Hle.
    + apply Qle_bool_iff in Hle. constructor.
      * now constructor.
      * constructor; [exact Hle |].
        eapply Forall_impl; [| exact Hall].
        intros z Hz. now apply (by_score_trans x y z).
    + assert (Hyx : by_score y x).
      { unfold by_score. apply Qlt_le_weak, Qnot_le_lt.
        intros Hxy. apply Qle_bool_iff in Hxy. congruence. }
      constructor; [exact IH |].
      apply (Permutation_Forall (insert_perm x rest)).
      now constructor.
Qed.

Lemma sort_sorted (l : list scored) : StronglySorted by_score (sort l).
Proof.
  induction l as [| x rest IH]; simpl; [constructor | now apply insert_sorted].
Qed.

(** Inserting leaves the entries of any one score in their order, the
    new entry ahead of the equal ones already placed. *)
Lemma insert_same_score (s : Q) (x : scored) (l : list scored) :
  filter (same_score s) (insert x l) = filter (same_score s) (x :: l).
Proof.
  induction l as [| y rest IH]; [reflexivity |].
  cbn [insert]. destruct (Qle_bool (fst x) (fst y)) eqn:Hle; [reflexivity |].
  cbn [filter] in *. rewrite IH.
  destruct (same_score s x) eqn:Hx; [| reflexivity].
  destruct (same_score s y) eqn:Hy; [| reflexivity].
  unfold same_score in Hx, Hy.
  apply Qeq_bool_iff in Hx. apply Qeq_bool_iff in Hy.
  assert (Hxy : Qle_bool (fst x) (fst y) = true).
  { apply Qle_bool_iff. rewrite Hx, Hy. apply Qle_refl. }
  congruence.
Qed.

Lemma sort_same_score (s : Q) (l : list scored) :
  filter (same_score s) (sort l) = filter (same_score s) l.
Proof.
  induction l as [| x rest IH]; [reflexivity |].
  cbn [sort]. rewrite insert_same_score. cbn [filter]. now rewrite IH.
Qed.

(** C4: the blocks of the document are the blocks of the entries sorted
    by ascending score; the sorted entries are the given ones, and the
    entries of any one score keep the order in which they were met. *)
Theorem blocks_ascending_stable (heading tips : string)
  (detailed_results : list scored) :
  StronglySorted by_score (sort detailed_results)
  /\ Permutation detailed_results (sort detailed_results)
  /\ (forall s : Q,
      filter (same_score s) (sort detailed_results)
      = filter (same_score s) detailed_results)
  /\ venue_blocks detailed_results = map snd (sort detailed_results)
  /\ final_response heading tips detailed_results
     = (heading
        ++ join (String Parser.newline (String Parser.newline ""))
                (map snd (sort detailed_results))
        ++ tips)%string.
Proof.
  split; [apply sort_sorted |]. split; [apply sort_perm |].
  split; [intros s; apply sort_same_score |]. split; reflexivity.
Qed.

End RankerFacts.

(** * Properties of the orchestrator *)

Module OrchestratorFacts.
Import PyStr Py Directions Ranker Orchestrator Samples.

Lemma pad_spec (locations prefs : list string) :
  pad locations prefs
  = prefs ++ repeat "driving" (List.length locations - List.length prefs).
Proof.
  funelim (pad locations prefs).
  - match goal with
    | IH : pad _ _ = _ ++ repeat _ _ |- _ => rewrite IH
    end.
    rewrite length_app. cbn [List.length].
    destruct (List.length locations - List.length prefs) as [| k] eqn:Hk;
      [lia |].
    replace (List.length locations - (List.length prefs + 1)) with k by lia.
    rewrite <- app_assoc. reflexivity.
  - replace (List.length locations - List.length prefs) with 0 by lia.
    cbn [repeat]. now rewrite app_nil_r.
Qed.

Example pad_short :
  effective_preferences ["Camden"; "Soho"; "Bank"] (Some ["walking"])
  = ["walking"; "driving"; "driving"].
Proof. reflexivity. Qed.

Example legs_ignore_extra :
  List.length
    (@venue_legs sample_runtime routing ["Camden"; "Soho"]
       (Some ["walking"; "Any"; "transit"; "bicycling"])
       "9 Conduit Street, Mayfair" 86400%Z)
  = 2.
Proof. reflexivity. Qed.

Lemma effective_length (locations : list string)
  (transport_preferences : option (list string)) :
  List.length locations
  <= List.length (effective_preferences locations transport_preferences).
Proof.
  unfold effective_preferences.
  destruct transport_preferences as [prefs |]; rewrite pad_spec;
    rewrite length_app, ?repeat_length; lia.
Qed.

Lemma combine_firstn (locations prefs : list string) :
  combine locations (firstn (List.length locations) prefs)
  = combine locations prefs.
Proof.
  revert prefs. induction locations as [| x xs IH]; intros prefs;
    [reflexivity |].
  destruct prefs as [| p ps]; [reflexivity |].
  cbn [List.length firstn combine]. now rewrite IH.
Qed.

Lemma travel_infos_nth `{Runtime} (w : world) (locations prefs : list string)
  (venue_address : string) (meeting_datetime : datetime)
  (i : nat) (location transport : string) :
  nth_error locations i = Some location ->
  nth_error prefs i = Some transport ->
  nth_error (travel_infos w locations prefs venue_address meeting_datetime) i
  = Some (fst (_get_travel_time_and_route w location venue_address
                 (actual_transport transport) (Some meeting_datetime))).
Proof.
  unfold travel_infos. revert prefs i.
  induction locations as [| x xs IH]; intros prefs i Hloc Hpref.
  - destruct i; discriminate.
  - destruct prefs as [| p ps]; [destruct i; discriminate |].
    destruct i as [| i]; cbn [combine map nth_error] in *.
    + injection Hloc as ->. injection Hpref as ->. reflexivity.
    + now apply IH.
Qed.

Lemma turns_pairs {A : Type} (start : nat) (l : list A) :
  map snd (combine (seq start (List.length l)) l) = l.
Proof.
  revert start. induction l as [| x l IH]; intros start; [reflexivity |].
  cbn [List.length seq combine map snd]. now rewrite IH.
Qed.

(** The dictionaries of the per-person loop of the whole recommendation
    are those of [travel_infos]. *)
Lemma people_legs {R : Runtime} {F : Recommender.Formatting R}
  (mw : Directions.world)
  (locations prefs : list string) (venue_address : string)
  (meeting_datetime : datetime) :
  map (fun t => snd (fst t))
      (Recommender.people mw locations prefs venue_address meeting_datetime)
  = travel_infos mw locations prefs venue_address meeting_datetime.
Proof.
  unfold Recommender.people, travel_infos, Recommender.turns.
  rewrite map_map.
  rewrite <- (turns_pairs 0 (combine locations prefs)) at 3.
  rewrite map_map. reflexivity.
Qed.

(** C10: a venue gets exactly one leg per location.  A preference list
    given shorter than the locations is completed with "driving", a
    missing one is all "driving", and entries beyond the number of
    locations play no part; the i-th leg is the lookup from the i-th
    location with the i-th effective preference.  The per-person loop of
    the whole recommendation, run on the effective preferences, collects
    exactly these legs. *)
Theorem one_leg_per_location {R : Runtime} (w : world)
  (locations : list string)
  (transport_preferences : option (list string)) (venue_address : string)
  (meeting_datetime : datetime) :
  let prefs := effective_preferences locations transport_preferences in
  let legs := venue_legs w locations transport_preferences venue_address
                meeting_datetime in
  List.length legs = List.length locations
  /\ prefs
     = match transport_preferences with
       | Some given =>
           given ++ repeat "driving"
                      (List.length locations - List.length given)
       | None => repeat "driving" (List.length locations)
       end
  /\ legs = travel_infos w locations (firstn (List.length locations) prefs)
              venue_address meeting_datetime
  /\ (forall (i : nat) (location : string),
      nth_error locations i = Some location ->
      exists transport : string,
        nth_error prefs i = Some transport
        /\ nth_error legs i
           = Some (fst (_get_travel_time_and_route w location venue_address
                          (actual_transport transport)
                          (Some meeting_datetime))))
  /\ (forall F : Recommender.Formatting R,
      let everyone := Recommender.people w locations prefs venue_address
                        meeting_datetime in
      map (fun t => snd (fst t)) everyone = legs
      /\ List.length everyone = List.length locations).
Proof.
  intros prefs legs.
  pose proof (effective_length locations transport_preferences) as Hlen.
  fold prefs in Hlen.
  assert (Hlegs : List.length legs = List.length locations).
  { subst legs. unfold venue_legs, travel_infos. fold prefs.
    rewrite length_map, length_combine. lia. }
  split; [exact Hlegs |].
  split.
  { subst prefs. unfold effective_preferences.
    destruct transport_preferences as [given |]; rewrite pad_spec;
      [reflexivity |].
    rewrite repeat_length, Nat.sub_diag. apply app_nil_r. }
  split.
  { subst legs. unfold venue_legs, travel_infos. fold prefs.
    now rewrite combine_firstn. }
  split.
  { intros i location Hloc.
    assert (Hi : i < List.length prefs).
    { assert (i < List.length locations)
        by (apply nth_error_Some; congruence).
      lia. }
    destruct (nth_error prefs i) as [transport |] eqn:Hpref.
    - exists transport. split; [reflexivity |].
      subst legs. unfold venue_legs. fold prefs.
      now apply travel_infos_nth.
    - apply nth_error_None in Hpref. lia. }
  intros F everyone.
  assert (Hloop : map (fun t => snd (fst t)) everyone = legs).
  { subst everyone legs. rewrite people_legs. reflexivity. }
  split; [exact Hloop |].
  rewrite <- Hlegs, <- Hloop. now rewrite length_map.
Qed.

End OrchestratorFacts.

(** * Further properties of the parser *)

Module ParserMore.
Import PyStr Py Parser Suggestion.

(** ** Stripping *)

Lemma digit_not_space (c : ascii) : isdigit c = true -> isspace c = false.
Proof.
  destruct c as [[] [] [] [] [] [] [] []]; vm_compute; congruence.
Qed.

Lemma digit_plain (c : ascii) :
  isdigit c = true ->
  is_char "." c = false /\ is_char "-" c = false /\ is_char newline c = false.
Proof.
  destruct c as [[] [] [] [] [] [] [] []]; vm_compute; intuition congruence.
Qed.

Lemma rstrip_cons (c : ascii) (r : string) :
  rstrip (String c r)
  = match rstrip r with
    | EmptyString => if isspace c then EmptyString else String c EmptyString
    | r' => String c r'
    end.
Proof. reflexivity. Qed.

Lemma rstrip_idempotent (s : string) : rstrip (rstrip s) = rstrip s.
Proof.
  induction s as [| c r IH]; [reflexivity |].
  rewrite rstrip_cons. destruct (rstrip r) as [| d r'] eqn:Hr.
  - destruct (isspace c) eqn:Hc; [reflexivity |].
    rewrite rstrip_cons. cbn [rstrip]. now rewrite Hc.
  - rewrite rstrip_cons, IH. reflexivity.
Qed.

Lemma lstrip_head (s : string) :
  lstrip s = EmptyString
  \/ exists c r, lstrip s = String c r /\ isspace c = false.
Proof.
  induction s as [| c r IH]; [now left |].
  cbn [lstrip]. destruct (isspace c) eqn:Hc; [exact IH |].
  right. now exists c, r.
Qed.

Lemma rstrip_keeps_head (c : ascii) (r : string) :
  isspace c = false -> exists r', rstrip (String c r) = String c r'.
Proof.
  intros Hc. rewrite rstrip_cons. destruct (rstrip r) as [| d r'].
  - rewrite Hc. now exists EmptyString.
  - now exists (String d r').
Qed.

(** A stripped text is left alone by [lstrip] and by [rstrip]. *)
Lemma strip_trimmed (s : string) :
  lstrip (strip s) = strip s /\ rstrip (strip s) = strip s.
Proof.
  unfold strip. split; [| apply rstrip_idempotent].
  destruct (lstrip_head s) as [-> | (c & r & -> & Hc)]; [reflexivity |].
  destruct (rstrip_keeps_head c r Hc) as [r' ->].
  cbn [lstrip]. now rewrite Hc.
Qed.

Lemma any_lstrip (p : ascii -> bool) (s : string) :
  (forall c, p c = true -> isspace c = false) ->
  any p (lstrip s) = any p s.
Proof.
  intros Hp. induction s as [| c r IH]; [reflexivity |].
  cbn [lstrip]. destruct (isspace c) eqn:Hc; [| reflexivity].
  cbn [any]. rewrite IH. destruct (p c) eqn:Hpc; [| reflexivity].
  apply Hp in Hpc. congruence.
Qed.

Lemma any_rstrip (p : ascii -> bool) (s : string) :
  (forall c, p c = true -> isspace c = false) ->
  any p (rstrip s) = any p s.
Proof.
  intros Hp. induction s as [| c r IH]; [reflexivity |].
  rewrite rstrip_cons. cbn [any]. rewrite <- IH.
  destruct (rstrip r) as [| d r']; [| reflexivity].
  cbn [any]. rewrite orb_false_r.
  destruct (isspace c) eqn:Hc; [| cbn [any]; apply orb_false_r].
  cbn [any]. destruct (p c) eqn:Hpc; [| reflexivity].
  apply Hp in Hpc. congruence.
Qed.

Lemma any_strip (p : ascii -> bool) (s : string) :
  (forall c, p c = true -> isspace c = false) ->
  any p (strip s) = any p s.
Proof.
  intros Hp. unfold strip. now rewrite any_rstrip, any_lstrip.
Qed.

(** Stripping never brings in a character that was not there. *)
Lemma any_lstrip_false (p : ascii -> bool) (s : string) :
  any p s = false -> any p (lstrip s) = false.
Proof.
  induction s as [| c r IH]; [reflexivity |].
  cbn [lstrip any]. intros H. apply orb_false_iff in H. destruct H as [Hc Hr].
  destruct (isspace c); [now apply IH |].
  cbn [any]. now rewrite Hc, Hr.
Qed.

Lemma any_rstrip_false (p : ascii -> bool) (s : string) :
  any p s = false -> any p (rstrip s) = false.
Proof.
  induction s as [| c r IH]; [reflexivity |].
  rewrite rstrip_cons. cbn [any]. intros H.
  apply orb_false_iff in H. destruct H as [Hc Hr].
  specialize (IH Hr). destruct (rstrip r) as [| d r'].
  - destruct (isspace c); [reflexivity |]. cbn [any]. now rewrite Hc.
  - cbn [any] in *. now rewrite Hc, IH.
Qed.

(** X1: every line the parser selects from the text is non-empty, holds
    a digit, holds no line break and has no whitespace at either end. *)
Theorem venue_lines_clean (raw : string) :
  Forall (fun line =>
            truthy line = true
            /\ any isdigit line = true
            /\ any (is_char newline) line = false
            /\ strip line = line)
         (venue_lines raw).
Proof.
  unfold venue_lines. apply Forall_forall. intros line Hin.
  apply in_map_iff in Hin. destruct Hin as (piece & <- & Hpiece).
  apply filter_In in Hpiece. destruct Hpiece as [Hfield Hkeep].
  apply andb_true_iff in Hkeep. destruct Hkeep as [Hne Hdigit].
  split; [exact Hne |]. split.
  { rewrite any_strip by apply digit_not_space. exact Hdigit. }
  split.
  { unfold strip. apply any_rstrip_false, any_lstrip_false.
    pose proof (ParserFacts.fields_free (Ascii.eqb newline) raw) as Hfree.
    rewrite Forall_forall in Hfree. exact (Hfree piece Hfield). }
  destruct (strip_trimmed piece) as [Hl Hr].
  unfold strip at 1. now rewrite Hl, Hr.
Qed.

(** ** Splitting *)

Lemma fields_whole (p : ascii -> bool) (s : string) :
  any p s = false -> fields p s = [s].
Proof.
  induction s as [| c r IH]; [reflexivity |].
  cbn [any fields]. intros H. apply orb_false_iff in H. destruct H as [Hc Hr].
  now rewrite Hc, (IH Hr).
Qed.

Lemma fields_append (p : ascii -> bool) (a b : string) (c : ascii) :
  any p a = false -> p c = true ->
  fields p (a ++ String c b) = a :: fields p b.
Proof.
  intros Ha Hc. induction a as [| d r IH].
  - cbn [append fields]. now rewrite Hc.
  - cbn [any] in Ha. apply orb_false_iff in Ha. destruct Ha as [Hd Hr].
    cbn [append fields]. now rewrite Hd, (IH Hr).
Qed.

(** Splitting a text joined with line breaks gives the lines back. *)
Lemma split_join (lines : list string) :
  lines <> [] ->
  Forall (fun line => any (is_char newline) line = false) lines ->
  split_char newline (join (String newline "") lines) = lines.
Proof.
  unfold split_char. intros Hne Hclean.
  induction Hclean as [| x rest Hx Hrest IH]; [congruence |].
  destruct rest as [| y rest'].
  - cbn [join]. now apply fields_whole.
  - change (join (String newline "") (x :: y :: rest'))
      with (x ++ String newline (join (String newline "") (y :: rest')))%string.
    rewrite fields_append;
      [| exact Hx | unfold is_char; apply Ascii.eqb_refl].
    f_equal. apply IH. discriminate.
Qed.

Lemma append_assoc (a b c : string) :
  ((a ++ b) ++ c = a ++ (b ++ c))%string.
Proof.
  induction a as [| x r IH]; [reflexivity |]. cbn [append]. now rewrite IH.
Qed.

Lemma any_append (p : ascii -> bool) (a b : string) :
  any p (a ++ b) = any p a || any p b.
Proof.
  induction a as [| c r IH]; [reflexivity |].
  cbn [append any]. now rewrite IH, orb_assoc.
Qed.

Lemma all_any (p q : ascii -> bool) (s : string) :
  (forall c, p c = true -> q c = false) ->
  all p s = true -> any q s = false.
Proof.
  intros Hpq. induction s as [| c r IH]; [reflexivity |].
  cbn [all any]. intros H. apply andb_true_iff in H. destruct H as [Hc Hr].
  now rewrite (Hpq c Hc), (IH Hr).
Qed.

Lemma rstrip_append (a b : string) :
  b <> EmptyString -> rstrip b = b -> rstrip (a ++ b) = (a ++ b)%string.
Proof.
  intros Hne Hb. induction a as [| c r IH]; [exact Hb |].
  cbn [append]. rewrite rstrip_cons, IH.
  destruct (r ++ b)%string eqn:Hrb; [| reflexivity].
  destruct r; [cbn [append] in Hrb; congruence | discriminate].
Qed.

Lemma split_once_cons (sep : string) (c : ascii) (r : string) :
  split_once sep (String c r)
  = if String.prefix sep (String c r)
    then Some (EmptyString, skip (String.length sep) (String c r))
    else match split_once sep r with
         | Some (a, b) => Some (String c a, b)
         | None => None
         end.
Proof. reflexivity. Qed.

(** The leftmost [" - "] of a text whose first part has no hyphen. *)
Lemma split_once_dash (a b : string) :
  any (is_char "-") a = false ->
  split_once " - " (a ++ " - " ++ b) = Some (a, b).
Proof.
  intros Ha. remember (" - " ++ b)%string as tail eqn:Htail.
  induction a as [| c r IH].
  - subst tail. destruct b; reflexivity.
  - cbn [any] in Ha. apply orb_false_iff in Ha. destruct Ha as [Hc Hr].
    cbn [append]. rewrite split_once_cons, (IH Hr).
    replace (String.prefix " - " (String c (r ++ tail))) with false;
      [reflexivity |].
    symmetry. cbn [String.prefix].
    destruct (ascii_dec " " c) as [<- |]; [| reflexivity].
    destruct r as [| d r'].
    + subst tail. reflexivity.
    + cbn [append String.prefix]. cbn [any] in Hr.
      apply orb_false_iff in Hr. destruct Hr as [Hd _].
      destruct (ascii_dec "-" d) as [<- |]; [discriminate Hd | reflexivity].
Qed.

(** The leftmost [". "] of a text whose first part has no full stop. *)
Lemma split_once_stop (a b : string) :
  any (is_char ".") a = false ->
  split_once ". " (a ++ ". " ++ b) = Some (a, b).
Proof.
  intros Ha. remember (". " ++ b)%string as tail eqn:Htail.
  induction a as [| c r IH].
  - subst tail. destruct b; reflexivity.
  - cbn [any] in Ha. apply orb_false_iff in Ha. destruct Ha as [Hc Hr].
    cbn [append]. rewrite split_once_cons, (IH Hr).
    replace (String.prefix ". " (String c (r ++ tail))) with false;
      [reflexivity |].
    symmetry. cbn [String.prefix].
    destruct (ascii_dec "." c) as [<- |]; [discriminate Hc | reflexivity].
Qed.

Lemma split_fields_entry (e : entry) :
  well_formed e -> split_fields (line_of e) = candidate_of e.
Proof.
  intros (_ & Hdigits & Hname & _).
  assert (Hstop : any (is_char ".") (number e) = false).
  { apply (all_any isdigit); [| exact Hdigits].
    intros c Hc. now apply digit_plain. }
  assert (Hdash : any (is_char "-") (number e) = false).
  { apply (all_any isdigit); [| exact Hdigits].
    intros c Hc. now apply digit_plain. }
  unfold split_fields, line_of.
  replace (number e ++ ". " ++ name e ++ " - " ++ address e)%string
    with ((number e ++ ". " ++ name e) ++ " - " ++ address e)%string.
  2:{ now rewrite !append_assoc. }
  rewrite split_once_dash.
  - now rewrite split_once_stop.
  - rewrite !any_append, Hdash, Hname. reflexivity.
Qed.

Lemma line_of_kept (e : entry) :
  well_formed e ->
  any (is_char newline) (line_of e) = false
  /\ strip (line_of e) = line_of e
  /\ any isdigit (line_of e) = true
  /\ truthy (line_of e) = true.
Proof.
  intros (Hnum & Hdigits & _ & Hname & Haddr & Hrstrip & Haddrnl & _).
  destruct (number e) as [| c r] eqn:Hn; [congruence |].
  cbn [all] in Hdigits. apply andb_true_iff in Hdigits.
  destruct Hdigits as [Hc Hr].
  assert (Hline : line_of e
                  = String c (r ++ ". " ++ name e ++ " - " ++ address e)).
  { unfold line_of. now rewrite Hn. }
  split.
  { unfold line_of. rewrite Hn, !any_append, Hname, Haddrnl.
    cbn [any]. destruct (digit_plain c Hc) as (_ & _ & ->).
    rewrite (all_any isdigit (is_char newline) r); [reflexivity | | exact Hr].
    intros d Hd. now apply digit_plain. }
  split.
  { unfold strip. rewrite Hline. cbn [lstrip].
    rewrite (digit_not_space c Hc). rewrite <- Hline. unfold line_of.
    rewrite <- !append_assoc. now apply rstrip_append. }
  split; [| now rewrite Hline].
  rewrite Hline. cbn [any]. now rewrite Hc.
Qed.

Lemma venue_lines_reply (entries : list entry) :
  entries <> [] -> Forall well_formed entries ->
  venue_lines (reply entries) = map line_of entries.
Proof.
  intros Hne Hwf. unfold venue_lines, reply.
  rewrite split_join.
  - induction Hwf as [| e rest He Hrest IH]; [congruence |].
    destruct (line_of_kept e He) as (_ & Hstrip & Hdigit & Htruthy).
    cbn [map filter]. rewrite Hstrip, Htruthy, Hdigit. cbn [andb map].
    rewrite Hstrip. f_equal.
    destruct rest as [| e' rest']; [reflexivity |]. apply IH. discriminate.
  - destruct entries; [congruence | discriminate].
  - apply Forall_map. eapply Forall_impl; [| exact Hwf].
    intros e He. now apply line_of_kept.
Qed.

(** X2: a reply of at least three lines in the requested format, each
    passing the validity filter, is parsed into exactly the names and
    addresses it holds, in order, the first five of them. *)
Theorem reply_parsed (entries : list entry) :
  Forall well_formed entries ->
  3 <= List.length entries ->
  parse_venues (reply entries) = firstn 5 (map candidate_of entries).
Proof.
  intros Hwf Hlen.
  assert (Hne : entries <> []) by (destruct entries; [simpl in Hlen; lia | discriminate]).
  unfold parse_venues, selected_lines, surviving_lines.
  rewrite (venue_lines_reply entries Hne Hwf).
  rewrite ParserFacts.filter_lines_filter.
  assert (Hall : filter acceptable (map line_of entries) = map line_of entries).
  { clear Hlen Hne. induction Hwf as [| e rest He Hrest IH]; [reflexivity |].
    cbn [map filter].
    destruct He as (_ & _ & _ & _ & _ & _ & _ & ->). now rewrite IH. }
  rewrite Hall.
  assert (Hdeg : degrade (map line_of entries) (map line_of entries)
                 = map line_of entries).
  { destruct entries; [congruence | reflexivity]. }
  rewrite Hdeg. unfold top_up. rewrite length_map.
  destruct (List.length entries <? 3) eqn:Hfew;
    [apply Nat.ltb_lt in Hfew; lia |].
  rewrite <- firstn_map, map_map. f_equal.
  apply map_ext_in. intros e He.
  rewrite Forall_forall in Hwf. now apply split_fields_entry, Hwf.
Qed.

(** The theorem at five lines in the prompt's own example format. *)
Lemma reply_parsed_witness :
  parse_venues (reply five_entries) = map candidate_of five_entries.
Proof.
  refine (reply_parsed five_entries _ _).
  - unfold five_entries.
    repeat (constructor;
            [unfold well_formed;
             repeat (split; [first [discriminate | reflexivity] |]);
             reflexivity |]).
    constructor.
  - simpl. lia.
Defined.

Lemma prefix_skip (sep s : string) :
  String.prefix sep s = true -> s = (sep ++ skip (String.length sep) s)%string.
Proof.
  revert s. induction sep as [| c sep IH]; intros s Hpre; [reflexivity |].
  destruct s as [| d s]; [discriminate |].
  cbn [String.prefix] in Hpre.
  destruct (ascii_dec c d) as [<- |]; [| discriminate].
  cbn [String.length skip append]. f_equal. now apply IH.
Qed.

(** What [split_once] returns are the two sides of an occurrence. *)
Lemma split_once_sound (sep s a b : string) :
  split_once sep s = Some (a, b) -> s = (a ++ sep ++ b)%string.
Proof.
  revert a b. induction s as [| c r IH]; intros a b Hsplit.
  - cbn [split_once] in Hsplit.
    destruct (String.prefix sep "") eqn:Hpre; [| discriminate].
    injection Hsplit as <- <-. now apply prefix_skip.
  - rewrite split_once_cons in Hsplit.
    destruct (String.prefix sep (String c r)) eqn:Hpre.
    + injection Hsplit as <- <-. now apply prefix_skip.
    + destruct (split_once sep r) as [[a' b'] |]; [| discriminate].
      injection Hsplit as <- <-. cbn [append]. f_equal. now apply IH.
Qed.

(** X3: the parser copies: the address of a candidate is a tail of its
    line and the name is a stretch of the line, whatever the line. *)
Theorem split_fields_verbatim (venue_line : string) :
  (exists before : string,
      venue_line = (before ++ venue_address (split_fields venue_line))%string)
  /\ (exists before after : string,
      venue_line
      = (before ++ venue_name (split_fields venue_line) ++ after)%string).
Proof.
  unfold split_fields.
  destruct (split_once " - " venue_line) as [[before after] |] eqn:Hdash.
  - apply split_once_sound in Hdash. cbn [venue_address venue_name]. split.
    + exists (before ++ " - ")%string. now rewrite append_assoc.
    + destruct (split_once ". " before) as [[num rest] |] eqn:Hstop.
      * apply split_once_sound in Hstop.
        exists (num ++ ". ")%string, (" - " ++ after)%string.
        rewrite Hdash, Hstop. now rewrite !append_assoc.
      * exists EmptyString, (" - " ++ after)%string. exact Hdash.
  - cbn [venue_address venue_name].
    destruct (split_once ". " venue_line) as [[num rest] |] eqn:Hstop.
    + apply split_once_sound in Hstop. split.
      * exists (num ++ ". ")%string. now rewrite append_assoc.
      * destruct (split_once "," rest) as [[first more] |] eqn:Hcomma.
        -- apply split_once_sound in Hcomma.
           exists (num ++ ". ")%string, ("," ++ more)%string.
           rewrite Hstop, Hcomma. now rewrite !append_assoc.
        -- exists (num ++ ". ")%string, EmptyString.
           rewrite Hstop. rewrite append_assoc. f_equal. f_equal.
           clear. induction rest as [| c r IH]; [reflexivity |].
           cbn [append]. now rewrite <- IH.
    + split; [now exists EmptyString |].
      destruct (split_once "," venue_line) as [[first more] |] eqn:Hcomma.
      * apply split_once_sound in Hcomma.
        exists EmptyString, ("," ++ more)%string. exact Hcomma.
      * exists EmptyString, EmptyString. cbn [append].
        clear. induction venue_line as [| c r IH]; [reflexivity |].
        cbn [append]. now rewrite <- IH.
Qed.

(** X17: the three tiers of the parser, in order.  When some line
    passes the validity filter, exactly the accepted lines go on and no
    rejected line is used; only when every line is rejected do the first
    five candidate lines go on instead; built-in venues are added only
    when fewer than three lines go on, after them, each one once and
    none that is already among them. *)
Theorem fallback_tiers (raw : string) :
  let accepted := filter acceptable (venue_lines raw) in
  (accepted <> [] ->
   surviving_lines raw = accepted
   /\ Forall (fun line => acceptable line = true) (surviving_lines raw))
  /\ (accepted = [] -> surviving_lines raw = firstn 5 (venue_lines raw))
  /\ exists added : list string,
       top_up (surviving_lines raw) = surviving_lines raw ++ added
       /\ incl added fallback_venues
       /\ NoDup added
       /\ (forall f, In f added -> ~ In f (surviving_lines raw))
       /\ (3 <= List.length (surviving_lines raw) -> added = []).
Proof.
  intros accepted. unfold surviving_lines.
  rewrite ParserFacts.filter_lines_filter. fold accepted.
  split; [| split].
  - intros Hsome. destruct accepted as [| line rest] eqn:Hacc; [congruence |].
    split; [reflexivity |]. cbn [degrade]. rewrite <- Hacc.
    apply Forall_forall. intros l Hl. unfold accepted in Hl.
    apply filter_In in Hl. tauto.
  - intros ->. reflexivity.
  - set (kept := degrade (venue_lines raw) accepted).
    unfold top_up. destruct (List.length kept <? 3) eqn:Hfew.
    + apply Nat.ltb_lt in Hfew.
      rewrite ParserFacts.add_fallbacks_shape
        by (auto using ParserFacts.fallback_venues_NoDup; lia).
      exists (firstn (5 - List.length kept)
                (filter (absent kept) fallback_venues)).
      split; [reflexivity |]. split.
      { intros f Hf. apply ParserFacts.firstn_incl, filter_In in Hf. tauto. }
      split.
      { apply ParserFacts.firstn_NoDup, NoDup_filter,
          ParserFacts.fallback_venues_NoDup. }
      split; [| lia].
      intros f Hf. apply ParserFacts.firstn_incl, filter_In in Hf.
      destruct Hf as [_ Habsent]. apply ParserFacts.mem_false.
      unfold absent in Habsent. now destruct (mem f kept).
    + exists []. rewrite app_nil_r. split; [reflexivity |].
      split; [intros f [] |]. split; [constructor |].
      split; [intros f [] | reflexivity].
Qed.

End ParserMore.

(** * Further properties of the directions client *)

Module DirectionsMore.
Import PyStr Py Directions Unquote Samples.

Lemma quote_plus_injective (s t : string) :
  quote_plus s = quote_plus t -> s = t.
Proof.
  intros H. rewrite <- (DirectionsFacts.unquote_bytes_quote s),
    <- (DirectionsFacts.unquote_bytes_quote t).
  now rewrite H.
Qed.

Lemma append_cancel (a x y : string) : (a ++ x = a ++ y)%string -> x = y.
Proof.
  induction a as [| c r IH]; [trivial |].
  cbn [append]. intros [= H]. now apply IH.
Qed.

Lemma url_char_not_slash (c : ascii) :
  url_char c = true -> Ascii.eqb "/" c = false.
Proof.
  destruct c as [[] [] [] [] [] [] [] []]; vm_compute; congruence.
Qed.

Lemma quoted_no_slash (s : string) : any (Ascii.eqb "/") (quote_plus s) = false.
Proof.
  apply (ParserMore.all_any url_char); [apply url_char_not_slash |].
  apply DirectionsFacts.quote_plus_safe.
Qed.

(** Two texts free of [/] that agree up to and after a [/] are equal. *)
Lemma split_at_slash (a a' x x' : string) :
  any (Ascii.eqb "/") a = false -> any (Ascii.eqb "/") a' = false ->
  (a ++ String "/" x = a' ++ String "/" x')%string ->
  a = a' /\ x = x'.
Proof.
  revert a'. induction a as [| c r IH]; intros a' Ha Ha' Heq.
  - destruct a' as [| c' r'].
    + cbn [append] in Heq. injection Heq as ->. now split.
    + cbn [append any] in *. injection Heq as <- _.
      rewrite Ascii.eqb_refl in Ha'. discriminate.
  - destruct a' as [| c' r'].
    + cbn [append any] in *. injection Heq as -> _.
      rewrite Ascii.eqb_refl in Ha. discriminate.
    + cbn [append any] in *. injection Heq as <- Hrest.
      apply orb_false_iff in Ha. apply orb_false_iff in Ha'.
      destruct (IH r' (proj2 Ha) (proj2 Ha') Hrest) as [-> ->]. now split.
Qed.

(** X4: a deep link determines the places it leads between: two links
    are equal only if their origins are equal, their destinations are
    equal and their travel modes are the same. *)
Theorem deep_link_injective (origin destination mode : string)
  (origin' destination' mode' : string) :
  _generate_google_maps_link origin destination mode
  = _generate_google_maps_link origin' destination' mode' ->
  origin = origin' /\ destination = destination'
  /\ google_mode mode = google_mode mode'.
Proof.
  unfold _generate_google_maps_link. intros Heq.
  apply append_cancel in Heq.
  change ("/" ++ ?x)%string with (String "/" x) in Heq.
  apply split_at_slash in Heq; try apply quoted_no_slash.
  destruct Heq as [Horigin Heq].
  change ("/@?hl=en&travelmode=" ++ google_mode mode)%string
    with (String "/" ("@?hl=en&travelmode=" ++ google_mode mode)) in Heq.
  change ("/@?hl=en&travelmode=" ++ google_mode mode')%string
    with (String "/" ("@?hl=en&travelmode=" ++ google_mode mode')) in Heq.
  apply split_at_slash in Heq; try apply quoted_no_slash.
  destruct Heq as [Hdest Hmode].
  apply append_cancel in Hmode.
  split; [now apply quote_plus_injective |].
  split; [now apply quote_plus_injective | exact Hmode].
Qed.

(** Two links that are equal: an unknown mode stands for driving. *)
Lemma deep_link_injective_witness :
  "King's Cross, N1C" = "King's Cross, N1C"
  /\ ("5 Caf" ++ String (ascii_of_nat 233) "")%string
     = ("5 Caf" ++ String (ascii_of_nat 233) "")%string
  /\ google_mode "Any" = google_mode "driving".
Proof.
  apply (deep_link_injective "King's Cross, N1C"
           ("5 Caf" ++ String (ascii_of_nat 233) "")%string "Any"
           "King's Cross, N1C"
           ("5 Caf" ++ String (ascii_of_nat 233) "")%string "driving").
  reflexivity.
Defined.

(** X5: when the service answers OK with a first route whose first leg
    gives a duration text, a duration in seconds and a distance text,
    the lookup returns those, the meeting time (or the current time when
    none is given) as the arrival, that time less the duration as the
    departure, the deep link, and the seconds as the authoritative
    duration. *)
Theorem lookup_success `{Runtime} (w : world)
  (origin destination mode : string) (meeting : option datetime)
  (key : string) (data route leg0 dur dist : json) (more more' : list json)
  (text km : string) (secs : Z) (leave : datetime) :
  credential (GOOGLE_MAPS_API_KEY w) = Some key ->
  get_json w (directions_request key origin destination mode meeting)
  = inr data ->
  item data "status" = inr (JStr "OK") ->
  item data "routes" = inr (JArr (route :: more)) ->
  item route "legs" = inr (JArr (leg0 :: more')) ->
  item leg0 "duration" = inr dur ->
  item dur "text" = inr (JStr text) ->
  item dur "value" = inr (JInt secs) ->
  item leg0 "distance" = inr dist ->
  item dist "text" = inr (JStr km) ->
  let arrival := match meeting with Some d => d | None => now end in
  fromtimestamp (timestamp arrival - secs) = inr leave ->
  _get_travel_time_and_route w origin destination mode meeting
  = (mk_leg text km (text ++ " via " ++ mode)%string []
            (strftime_clock leave) (strftime_clock arrival)
            (_generate_google_maps_link origin destination mode)
            (Some secs),
     [directions_request key origin destination mode meeting]).
Proof.
  intros Hkey Hcall Hstatus Hroutes Hlegs Hdur Htext Hvalue Hdist Hkm
         arrival Hleave.
  unfold _get_travel_time_and_route. rewrite Hkey, Hcall. cbn [bind].
  unfold read_route. rewrite Hstatus. cbn [bind is_ok String.eqb Ascii.eqb].
  rewrite Hroutes. cbn [bind ret json_truthy first].
  rewrite Hlegs. cbn [bind ret first].
  rewrite Hdur. cbn [bind]. rewrite Htext. cbn [bind].
  rewrite Hdist. cbn [bind]. rewrite Hkm. cbn [bind].
  rewrite Hvalue. cbn [bind as_number ret].
  fold arrival. rewrite Hleave. reflexivity.
Qed.

(** The successful path at the sample response of 1500 seconds. *)
Lemma lookup_success_witness :
  @_get_travel_time_and_route sample_runtime routing
     "London Bridge" "9 Conduit Street, Mayfair" "transit" (Some 86400%Z)
  = (mk_leg "25 mins" "7.4 km" "25 mins via transit" [] "84900" "86400"
            (_generate_google_maps_link "London Bridge"
               "9 Conduit Street, Mayfair" "transit")
            (Some 1500%Z),
     [@directions_request sample_runtime "maps-key" "London Bridge"
        "9 Conduit Street, Mayfair" "transit" (Some 86400%Z)]).
Proof.
  exact (@lookup_success sample_runtime routing
           "London Bridge" "9 Conduit Street, Mayfair" "transit"
           (Some 86400%Z) "maps-key" ok_response _ _ _ _ [] []
           "25 mins" "7.4 km" 1500%Z 84900%Z
           eq_refl eq_refl eq_refl eq_refl eq_refl eq_refl eq_refl eq_refl
           eq_refl eq_refl eq_refl).
Defined.

Lemma google_mode_cases (mode : string) :
  (In mode ["driving"; "transit"; "walking"; "bicycling"]
   /\ google_mode mode = mode)
  \/ (~ In mode ["driving"; "transit"; "walking"; "bicycling"]
      /\ google_mode mode = "driving").
Proof.
  unfold google_mode.
  destruct (String.eqb_spec mode "driving") as [-> | Hd];
    [left; simpl; tauto |].
  destruct (String.eqb_spec mode "transit") as [-> | Ht];
    [left; simpl; tauto |].
  destruct (String.eqb_spec mode "walking") as [-> | Hw];
    [left; simpl; tauto |].
  destruct (String.eqb_spec mode "bicycling") as [-> | Hb];
    [left; simpl; tauto |].
  right. split; [| reflexivity]. simpl. intuition congruence.
Qed.

Lemma param_departure `{Runtime} (key origin destination mode : string)
  (meeting : option datetime) :
  Params.param "departure_time"
    (directions_params key origin destination mode meeting)
  = match meeting with
    | Some d =>
        if String.eqb mode "transit" || String.eqb mode "driving"
        then Some (str_int (timestamp d)) else None
    | None => None
    end.
Proof.
  unfold directions_params.
  destruct meeting; destruct (String.eqb mode "transit");
    destruct (String.eqb mode "driving"); reflexivity.
Qed.

Lemma param_alternatives `{Runtime} (key origin destination mode : string)
  (meeting : option datetime) :
  Params.param "alternatives"
    (directions_params key origin destination mode meeting)
  = if String.eqb mode "transit" then Some "true" else None.
Proof.
  unfold directions_params.
  destruct meeting; destruct (String.eqb mode "transit");
    destruct (String.eqb mode "driving"); reflexivity.
Qed.

(** X6: the request a lookup issues asks about what its link shows: it
    goes to the directions endpoint with the credential, the same
    origin and destination, and the travel mode the link names (an
    unknown mode is asked, and linked, as driving).  A departure time is
    sent exactly when a meeting time is given and the mode is driving or
    transit; alternatives are asked for exactly when the mode is
    transit. *)
Theorem request_matches_link `{Runtime} (w : world)
  (origin destination mode : string) (meeting : option datetime)
  (r : request) :
  In r (snd (_get_travel_time_and_route w origin destination mode meeting)) ->
  url r = base_url
  /\ Params.param "key" (params r) = credential (GOOGLE_MAPS_API_KEY w)
  /\ Params.param "origin" (params r) = Some origin
  /\ Params.param "destination" (params r) = Some destination
  /\ Params.param "units" (params r) = Some "metric"
  /\ (exists travel : string,
      Params.param "mode" (params r) = Some travel
      /\ In travel ["driving"; "transit"; "walking"; "bicycling"]
      /\ (In mode ["driving"; "transit"; "walking"; "bicycling"] ->
          travel = mode)
      /\ (~ In mode ["driving"; "transit"; "walking"; "bicycling"] ->
          travel = "driving")
      /\ _generate_google_maps_link origin destination mode
         = ("https://www.google.com/maps/dir/" ++ quote_plus origin ++ "/"
            ++ quote_plus destination ++ "/@?hl=en&travelmode="
            ++ travel)%string)
  /\ (Params.param "departure_time" (params r) <> None
      <-> meeting <> None /\ In mode ["transit"; "driving"])
  /\ (forall d, meeting = Some d -> In mode ["transit"; "driving"] ->
      Params.param "departure_time" (params r) = Some (str_int (timestamp d)))
  /\ (Params.param "alternatives" (params r) <> None <-> mode = "transit").
Proof.
  unfold _get_travel_time_and_route.
  destruct (credential (GOOGLE_MAPS_API_KEY w)) as [key |].
  2:{ intros Hin. destruct Hin. }
  intros Hin. destruct Hin as [<- | []].
  unfold directions_request. cbn [url params].
  split; [reflexivity |]. split; [reflexivity |]. split; [reflexivity |].
  split; [reflexivity |]. split; [reflexivity |]. split.
  { exists (google_mode mode). split; [reflexivity |].
    destruct (google_mode_cases mode) as [[Hin Hmode] | [Hout Hmode]];
      rewrite Hmode.
    - split; [exact Hin |]. split; [reflexivity |].
      split; [intros Hno; now destruct Hno |].
      unfold _generate_google_maps_link. now rewrite Hmode.
    - split; [simpl; tauto |]. split; [intros Hyes; now destruct Hout |].
      split; [reflexivity |].
      unfold _generate_google_maps_link. now rewrite Hmode. }
  rewrite param_departure, param_alternatives.
  assert (Hdep : String.eqb mode "transit" || String.eqb mode "driving" = true
                 <-> In mode ["transit"; "driving"]).
  { rewrite orb_true_iff, !String.eqb_eq. simpl. intuition congruence. }
  split; [| split].
  - destruct meeting as [d |].
    + destruct (String.eqb mode "transit" || String.eqb mode "driving").
      * split; [intros _; split; [discriminate | now apply Hdep] | discriminate].
      * split; [congruence |]. intros [_ Hin]. apply Hdep in Hin. discriminate.
    + split; [congruence | intros [Hm _]; congruence].
  - intros d -> Hin. apply Hdep in Hin. now rewrite Hin.
  - destruct (String.eqb_spec mode "transit") as [Ht | Ht];
      split; congruence.
Qed.

(** The request of a walking lookup carries no departure time. *)
Lemma request_matches_link_witness :
  Params.param "mode"
    (params (@directions_request sample_runtime "maps-key" "Camden" "Soho"
               "walking" (Some 86400%Z)))
  = Some "walking"
  /\ Params.param "departure_time"
       (params (@directions_request sample_runtime "maps-key" "Camden" "Soho"
                  "walking" (Some 86400%Z)))
     = None.
Proof.
  pose proof (@request_matches_link sample_runtime routing "Camden" "Soho"
                "walking" (Some 86400%Z)
                (@directions_request sample_runtime "maps-key" "Camden" "Soho"
                   "walking" (Some 86400%Z))
                (or_introl eq_refl))
    as (_ & _ & _ & _ & _ & (travel & Hmode & _) & Hdep & _).
  split; [reflexivity |].
  destruct (Params.param "departure_time" _) as [sent |] eqn:Hsent;
    [| reflexivity].
  assert (Hno : In "walking" ["transit"; "driving"])
    by (apply Hdep; discriminate).
  simpl in Hno. destruct Hno as [Hno | [Hno | []]]; discriminate Hno.
Defined.

End DirectionsMore.

(** * Further properties of the ranker *)

Module RankerMore.
Import PyStr Py Directions Ranker FairnessSpec Samples.

Lemma all_failed_counts (legs : list leg) :
  (forall l, In l legs -> raw_duration_seconds l = None) ->
  sum_of (map counted legs) = 0%Z /\ max_of (map counted legs) = 0%Z.
Proof.
  induction legs as [| l legs IH]; intros Hnone; [now split |].
  destruct IH as [Hsum Hmax]; [intros x Hx; apply Hnone; now right |].
  cbn [map sum_of max_of fold_right]. fold (sum_of (map counted legs)).
  fold (max_of (map counted legs)). unfold counted at 1 3.
  rewrite (Hnone l) by now left. rewrite Hsum, Hmax. now split.
Qed.

Lemma score_nonneg (legs : list leg) :
  (forall l d, In l legs -> raw_duration_seconds l = Some d -> (0 <= d)%Z) ->
  (0 <= suitability_score legs)%Q.
Proof.
  intros Hpos. unfold suitability_score.
  rewrite RankerFacts.total_is_sum, RankerFacts.longest_is_max.
  pose proof (RankerFacts.max_of_nonneg (map counted legs)) as Hmax.
  pose proof (RankerFacts.sum_of_nonneg _
                (RankerFacts.counted_nonneg legs Hpos)) as Hsum.
  apply Qle_trans with (0 * (3 # 2) + 0)%Q; [vm_compute; discriminate |].
  apply Qplus_le_compat.
  - apply Qmult_le_compat_r; [| vm_compute; discriminate].
    change 0%Q with (inject_Z 0). now rewrite <- Zle_Qle.
  - change 0%Q with (inject_Z 0). now rewrite <- Zle_Qle.
Qed.

(** An entry no greater than the head of a list is put in front. *)
Lemma insert_front (x : scored) (l : list scored) :
  Forall (by_score x) l -> insert x l = x :: l.
Proof.
  intros Hall. destruct l as [| y rest]; [reflexivity |].
  apply Forall_inv in Hall. unfold by_score in Hall.
  apply Qle_bool_iff in Hall. cbn [insert]. now rewrite Hall.
Qed.

(** X7: a venue none of whose legs has an authoritative duration scores
    0, the least score a venue with non-negative durations can have, and
    its block is placed ahead of every venue met after it. *)
Theorem unreachable_ranks_first (legs : list leg) (block : string)
  (rest : list scored) :
  (forall l, In l legs -> raw_duration_seconds l = None) ->
  Forall (fun r => 0 <= fst r)%Q rest ->
  (suitability_score legs == 0)%Q
  /\ (forall others : list leg,
      (forall l d, In l others -> raw_duration_seconds l = Some d ->
                   (0 <= d)%Z) ->
      (suitability_score legs <= suitability_score others)%Q)
  /\ venue_blocks ((suitability_score legs, block) :: rest)
     = block :: venue_blocks rest.
Proof.
  intros Hnone Hrest.
  assert (Hzero : (suitability_score legs == 0)%Q).
  { unfold suitability_score.
    rewrite RankerFacts.total_is_sum, RankerFacts.longest_is_max.
    destruct (all_failed_counts legs Hnone) as [-> ->]. reflexivity. }
  split; [exact Hzero |]. split.
  { intros others Hpos. rewrite Hzero. now apply score_nonneg. }
  unfold venue_blocks. cbn [sort]. rewrite insert_front; [reflexivity |].
  apply (Permutation_Forall (RankerFacts.sort_perm rest)).
  eapply Forall_impl; [| exact Hrest].
  intros r Hr. unfold by_score. cbn [fst]. now rewrite Hzero.
Qed.

(** The theorem at a venue whose two lookups both failed, met before a
    venue ten minutes away from everyone. *)
Lemma unreachable_ranks_first_witness :
  venue_blocks [(suitability_score [untimed; untimed], "unreachable");
                (suitability_score [timed 600; timed 600], "near")]
  = ["unreachable"; "near"].
Proof.
  refine (proj2 (proj2 (unreachable_ranks_first [untimed; untimed]
                          "unreachable"
                          [(suitability_score [timed 600; timed 600], "near")]
                          _ _))).
  - intros l [<- | [<- | []]]; reflexivity.
  - repeat constructor. vm_compute. discriminate.
Defined.

Lemma sum_of_mono (xs ys : list Z) :
  Forall2 Z.le xs ys -> (sum_of xs <= sum_of ys)%Z.
Proof. induction 1; simpl; lia. Qed.

Lemma max_of_mono (xs ys : list Z) :
  Forall2 Z.le xs ys -> (max_of xs <= max_of ys)%Z.
Proof. induction 1; simpl; lia. Qed.

Lemma counted_pairs (legs legs' : list leg) :
  Forall2 (fun a b => counted a <= counted b)%Z legs legs' ->
  Forall2 Z.le (map counted legs) (map counted legs').
Proof. induction 1; simpl; constructor; assumption. Qed.

(** X8: the score is monotone: if every participant's counted duration
    to one venue is at most their counted duration to another, the
    first venue's score is at most the second's. *)
Theorem score_monotone (legs legs' : list leg) :
  Forall2 (fun a b => counted a <= counted b)%Z legs legs' ->
  (suitability_score legs <= suitability_score legs')%Q.
Proof.
  intros Hle. apply counted_pairs in Hle.
  unfold suitability_score.
  rewrite !RankerFacts.total_is_sum, !RankerFacts.longest_is_max.
  apply Qplus_le_compat.
  - apply Qmult_le_compat_r; [| vm_compute; discriminate].
    rewrite <- Zle_Qle. now apply max_of_mono.
  - rewrite <- Zle_Qle. now apply sum_of_mono.
Qed.

(** The theorem at two venues for two participants. *)
Lemma score_monotone_witness :
  (suitability_score [timed 300; untimed]
   <= suitability_score [timed 300; timed 120])%Q.
Proof.
  apply score_monotone. repeat constructor; vm_compute; discriminate.
Defined.

Lemma sum_le_length_max (ds : list Z) :
  (sum_of ds <= Z.of_nat (List.length ds) * max_of ds)%Z.
Proof.
  induction ds as [| d ds IH]; [simpl; lia |].
  pose proof (RankerFacts.max_of_nonneg ds) as Hpos.
  change (max_of (d :: ds)) with (Z.max d (max_of ds)).
  change (sum_of (d :: ds)) with (d + sum_of ds)%Z.
  cbn [List.length]. nia.
Qed.

(** X9: in a venue's summary the average shown never exceeds the
    longest journey shown, as long as there are no more legs than
    participants. *)
Theorem average_at_most_longest (participants : nat) (legs : list leg)
  (avg : Z) :
  List.length legs <= participants ->
  avg_time_minutes participants (total_duration_seconds legs) = inr avg ->
  (0 <= avg <= max_time_minutes (max_duration_seconds legs))%Z.
Proof.
  intros Hlen Havg.
  rewrite RankerFacts.total_is_sum in Havg. rewrite RankerFacts.longest_is_max.
  pose proof (RankerFacts.max_of_nonneg (map counted legs)) as Hmax.
  pose proof (sum_le_length_max (map counted legs)) as Hsum.
  rewrite length_map in Hsum.
  set (S := sum_of (map counted legs)) in *.
  set (M := max_of (map counted legs)) in *.
  unfold avg_time_minutes in Havg. unfold max_time_minutes.
  destruct (0 <? S)%Z eqn:Hgt.
  - apply Z.ltb_lt in Hgt.
    destruct (participants =? 0) eqn:Hzero; [discriminate |].
    apply Nat.eqb_neq in Hzero. injection Havg as <-.
    assert (HM : (0 < M)%Z) by nia.
    apply Z.ltb_lt in HM. rewrite HM. apply Z.ltb_lt in HM.
    assert (Hn : (0 < Z.of_nat participants)%Z) by lia.
    assert (Hdiv : (S / Z.of_nat participants <= M)%Z).
    { apply Z.div_le_upper_bound; [exact Hn | nia]. }
    split.
    + apply Z.div_pos; [apply Z.div_pos |]; lia.
    + apply Z.div_le_mono; lia.
  - injection Havg as <-. destruct (0 <? M)%Z; [| lia].
    split; [lia |]. apply Z.div_pos; lia.
Qed.

(** The theorem at three participants of whom one has no duration. *)
Lemma average_at_most_longest_witness :
  (0 <= 1 <= max_time_minutes
              (max_duration_seconds [timed 90; untimed; timed 150]))%Z.
Proof.
  apply (average_at_most_longest 3 [timed 90; untimed; timed 150] 1%Z).
  - simpl. lia.
  - reflexivity.
Defined.

End RankerMore.

(** * Properties of the whole recommendation *)

Module RecommenderFacts.
Import PyStr Py Parser Directions Ranker Orchestrator Followup Recommender.
Import Samples MoreSamples.

Lemma lookup_requests `{Runtime} (mw : Directions.world)
  (origin destination mode : string) (meeting : option datetime) :
  List.length (snd (_get_travel_time_and_route mw origin destination mode
                      meeting))
  = if maps_available mw then 1 else 0.
Proof.
  unfold _get_travel_time_and_route, maps_available.
  now destruct (credential (GOOGLE_MAPS_API_KEY mw)).
Qed.

Lemma turns_requests `{Formatting} (mw : Directions.world)
  (venue_address : string) (meeting_datetime : datetime)
  (pairs : list (string * string)) (start : nat) :
  List.length
    (List.concat
       (map snd (map (person mw venue_address meeting_datetime)
                     (combine (seq start (List.length pairs)) pairs))))
  = if maps_available mw then List.length pairs else 0.
Proof.
  revert start. induction pairs as [| pair pairs IH]; intros start.
  - simpl. now destruct (maps_available mw).
  - cbn [List.length seq combine map List.concat]. rewrite length_app, IH.
    unfold person at 1. cbn [snd]. rewrite lookup_requests.
    now destruct (maps_available mw).
Qed.

Lemma people_requests `{Formatting} (mw : Directions.world)
  (locations prefs : list string) (venue_address : string)
  (meeting_datetime : datetime) :
  List.length
    (List.concat (map snd (people mw locations prefs venue_address
                             meeting_datetime)))
  = if maps_available mw
    then Nat.min (List.length locations) (List.length prefs) else 0.
Proof.
  unfold people, turns. rewrite turns_requests. now rewrite length_combine.
Qed.

Lemma text_calls_app (a b : list call) :
  text_calls (a ++ b) = text_calls a ++ text_calls b.
Proof. unfold text_calls. apply flat_map_app. Qed.

Lemma maps_calls_app (a b : list call) :
  maps_calls (a ++ b) = maps_calls a ++ maps_calls b.
Proof. unfold maps_calls. apply flat_map_app. Qed.

Lemma text_calls_maps (rs : list request) : text_calls (map MapsCall rs) = [].
Proof. induction rs as [| r rs IH]; [reflexivity | exact IH]. Qed.

Lemma maps_calls_maps (rs : list request) : maps_calls (map MapsCall rs) = rs.
Proof.
  induction rs as [| r rs IH]; [reflexivity |].
  cbn [map]. change (maps_calls (MapsCall r :: map MapsCall rs))
    with (r :: maps_calls (map MapsCall rs)). now rewrite IH.
Qed.

(** The average never divides by zero: a positive total needs a leg,
    and a leg needs a location. *)
Lemma average_defined `{Runtime} (mw : Directions.world)
  (locations prefs : list string) (venue_address : string)
  (meeting_datetime : datetime) :
  exists avg : Z,
    avg_time_minutes (List.length locations)
      (total_duration_seconds
         (travel_infos mw locations prefs venue_address meeting_datetime))
    = inr avg.
Proof.
  unfold avg_time_minutes.
  destruct locations as [| location rest].
  - unfold travel_infos. cbn [combine map]. now exists 0%Z.
  - destruct (0 <? _)%Z; cbn [List.length Nat.eqb]; eexists; reflexivity.
Qed.

Lemma process_venue_entry `{Formatting} (tw : Followup.world)
  (mw : Directions.world) (locations : list string) (activity_type : string)
  (prefs : list string) (meeting_datetime : datetime) (mood : option string)
  (venue_line : string) :
  let one := process_venue tw mw locations activity_type prefs
               meeting_datetime mood venue_line in
  (exists entry, fst one = inr entry)
  /\ List.length (text_calls (snd one)) = 1
  /\ List.length (maps_calls (snd one))
     = if maps_available mw
       then Nat.min (List.length locations) (List.length prefs) else 0.
Proof.
  unfold process_venue. cbn [fst snd]. split; [| split].
  - rewrite OrchestratorFacts.people_legs.
    destruct (average_defined mw locations prefs
                (venue_address (split_fields venue_line)) meeting_datetime)
      as [avg ->].
    cbn [bind ret]. eexists; reflexivity.
  - change (text_calls (TextCall ?r :: ?l)) with (r :: text_calls l).
    now rewrite text_calls_maps.
  - change (maps_calls (TextCall ?r :: ?l)) with (maps_calls l).
    rewrite maps_calls_maps. apply people_requests.
Qed.

Lemma process_venues_entries `{Formatting} (tw : Followup.world)
  (mw : Directions.world) (locations : list string) (activity_type : string)
  (prefs : list string) (meeting_datetime : datetime) (mood : option string)
  (venue_lines : list string) :
  let done := process_venues tw mw locations activity_type prefs
                meeting_datetime mood venue_lines in
  (exists entries,
      fst done = inr entries
      /\ List.length entries = List.length venue_lines)
  /\ List.length (text_calls (snd done)) = List.length venue_lines
  /\ List.length (maps_calls (snd done))
     = List.length venue_lines
       * (if maps_available mw
          then Nat.min (List.length locations) (List.length prefs) else 0).
Proof.
  induction venue_lines as [| venue_line rest IH].
  - cbn. split; [now exists [] | split; reflexivity].
  - destruct IH as ((entries & Hentries & Hlen) & Htext & Hmaps).
    destruct (process_venue_entry tw mw locations activity_type prefs
                meeting_datetime mood venue_line)
      as ((entry & Hentry) & Htext1 & Hmaps1).
    cbn [process_venues]. cbv zeta. rewrite Hentry, Hentries. cbn [fst snd].
    split; [| split].
    + exists (entry :: entries). split; [reflexivity |].
      cbn [List.length]. now rewrite Hlen.
    + rewrite text_calls_app, length_app, Htext1, Htext. reflexivity.
    + rewrite maps_calls_app, length_app, Hmaps1, Hmaps.
      cbn [List.length]. lia.
Qed.

(** X10: the recommendation fails closed.  Without the text-generation
    credential it returns the fixed message and calls neither service;
    when the client cannot be built, or the suggestion call raises, it
    returns the error text carrying the exception and has made no
    directions request and at most the one suggestion call. *)
Theorem recommendation_fails_closed `{Formatting} (tw : Followup.world)
  (mw : Directions.world) (locations : list string) (activity_type : string)
  (prefs : list string) (meeting_datetime : datetime)
  (meeting_area mood notes : option string) :
  let out := _get_detailed_venue_recommendations_with_real_times tw mw
               locations activity_type prefs meeting_datetime meeting_area
               mood notes in
  let asked := venue_request locations activity_type meeting_area mood notes in
  (credential (OPENAI_API_KEY tw) = None -> out = (key_not_found, []))
  /\ (forall (key : string) (e : exn),
      credential (OPENAI_API_KEY tw) = Some key ->
      make_client tw key = inl e ->
      out = (error_text e, []))
  /\ (forall (key : string) (e : exn),
      credential (OPENAI_API_KEY tw) = Some key ->
      make_client tw key = inr tt ->
      create tw asked = inl e ->
      out = (error_text e, [TextCall asked]))
  /\ ((exists detailed_results,
          fst out = final_response
                      (heading locations activity_type meeting_datetime
                         meeting_area mood notes)
                      (tips meeting_datetime mood) detailed_results)
      \/ ((fst out = key_not_found \/ exists e, fst out = error_text e)
          /\ maps_calls (snd out) = []
          /\ List.length (text_calls (snd out)) <= 1)).
Proof.
  intros out asked. subst out asked.
  unfold _get_detailed_venue_recommendations_with_real_times.
  destruct (credential (OPENAI_API_KEY tw)) as [key |].
  2:{ split; [reflexivity |]. split; [discriminate |]. split; [discriminate |].
      right. split; [now left |]. split; [reflexivity | simpl; lia]. }
  split; [discriminate |].
  destruct (make_client tw key) as [e | []] eqn:Hclient.
  { split; [intros key' e' [= <-] Hm; rewrite Hclient in Hm;
            now injection Hm as <- |].
    split; [intros key' e' [= <-] Hm; rewrite Hclient in Hm; discriminate |].
    right. split; [right; now exists e |]. split; [reflexivity | simpl; lia]. }
  split; [intros key' e' [= <-] Hm; rewrite Hclient in Hm; discriminate |].
  destruct (create tw _) as [e | content] eqn:Hcreate.
  { split; [intros key' e' _ _ [= <-]; reflexivity |].
    right. split; [right; now exists e |]. split; [reflexivity | simpl; lia]. }
  split; [intros key' e' _ _; discriminate |].
  left.
  destruct (process_venues_entries tw mw locations activity_type prefs
              meeting_datetime mood
              (selected_lines (venue_suggestions content)))
    as ((entries & Hentries & _) & _).
  cbn [fst]. rewrite Hentries. now exists entries.
Qed.

Lemma selected_count (raw : string) :
  3 <= List.length (selected_lines raw) <= 5.
Proof.
  unfold selected_lines. rewrite length_firstn, ParserFacts.top_up_length.
  destruct (List.length (surviving_lines raw) <? 3) eqn:Hfew; [lia |].
  apply Nat.ltb_ge in Hfew. lia.
Qed.

(** X11: once the suggestion call has returned, [get_recommendations]
    always returns a document, with one block per parsed venue; it has
    then made one text-generation call for the suggestions and one per
    venue for its description, and, when the directions credential is
    set, one directions request per venue and location (none otherwise),
    whatever the description calls and the lookups returned. *)
Theorem recommendation_calls `{Formatting} (tw : Followup.world)
  (mw : Directions.world) (locations : list string) (activity : string)
  (meeting_area mood notes : option string)
  (meeting_datetime : option datetime)
  (transport_preferences : option (list string))
  (key : string) (content : option string) :
  credential (OPENAI_API_KEY tw) = Some key ->
  make_client tw key = inr tt ->
  create tw (venue_request locations activity meeting_area mood notes)
  = inr content ->
  let out := get_recommendations tw mw locations activity meeting_area mood
               notes meeting_datetime transport_preferences in
  let venues := parse_venues (venue_suggestions content) in
  let meeting := match meeting_datetime with Some d => d | None => now end in
  (exists detailed_results : list scored,
      fst out
      = final_response
          (heading locations activity meeting meeting_area mood notes)
          (tips meeting mood) detailed_results
      /\ List.length detailed_results = List.length venues)
  /\ 3 <= List.length venues <= 5
  /\ List.length (text_calls (snd out)) = 1 + List.length venues
  /\ List.length (maps_calls (snd out))
     = List.length venues
       * (if maps_available mw then List.length locations else 0).
Proof.
  intros Hkey Hclient Hcreate out venues meeting.
  subst out venues. unfold get_recommendations,
    _get_detailed_venue_recommendations_with_real_times.
  rewrite Hkey, Hclient, Hcreate. fold meeting.
  unfold parse_venues. rewrite length_map.
  destruct (process_venues_entries tw mw locations activity
              (effective_preferences locations transport_preferences)
              meeting mood (selected_lines (venue_suggestions content)))
    as ((entries & Hentries & Hlen) & Htext & Hmaps).
  cbn [fst snd]. rewrite Hentries.
  split; [exists entries; now split |].
  split; [apply selected_count |].
  split.
  - change (text_calls (TextCall ?r :: ?l)) with (r :: text_calls l).
    cbn [List.length]. now rewrite Htext.
  - change (maps_calls (TextCall ?r :: ?l)) with (maps_calls l).
    rewrite Hmaps.
    pose proof (OrchestratorFacts.effective_length locations
                  transport_preferences) as Hpad.
    now rewrite (Nat.min_l _ _ Hpad).
Qed.

(** The theorem at a reply without any venue line: five built-in venues,
    six text-generation calls and, for two locations, ten directions
    requests. *)
Lemma recommendation_calls_witness :
  let out := @get_recommendations sample_runtime sample_formatting
               answering routing ["Camden"; "Soho"] "Coffee/Cafe"
               None (Some "Any") None (Some 86400%Z) (Some ["walking"]) in
  List.length (text_calls (snd out)) = 6
  /\ List.length (maps_calls (snd out)) = 10.
Proof.
  intros out.
  destruct (@recommendation_calls sample_runtime sample_formatting
              answering routing ["Camden"; "Soho"] "Coffee/Cafe"
              None (Some "Any") None (Some 86400%Z) (Some ["walking"])
              "sk-test" (Some "Happy to help!") eq_refl eq_refl eq_refl)
    as (_ & _ & Htext & Hmaps).
  split; [exact Htext | exact Hmaps].
Defined.

(** X12: whatever the two services do, [get_recommendations] makes at
    most six text-generation calls and at most five directions requests
    per location. *)
Theorem recommendation_budget `{Formatting} (tw : Followup.world)
  (mw : Directions.world) (locations : list string) (activity : string)
  (meeting_area mood notes : option string)
  (meeting_datetime : option datetime)
  (transport_preferences : option (list string)) :
  let out := get_recommendations tw mw locations activity meeting_area mood
               notes meeting_datetime transport_preferences in
  List.length (text_calls (snd out)) <= 6
  /\ List.length (maps_calls (snd out)) <= 5 * List.length locations.
Proof.
  intros out. subst out. unfold get_recommendations,
    _get_detailed_venue_recommendations_with_real_times.
  destruct (credential (OPENAI_API_KEY tw)) as [key |]; [| simpl; lia].
  destruct (make_client tw key) as [e | []]; [simpl; lia |].
  destruct (create tw _) as [e | content]; [simpl; lia |].
  set (meeting := match meeting_datetime with Some d => d | None => now end).
  destruct (process_venues_entries tw mw locations activity
              (effective_preferences locations transport_preferences)
              meeting mood (selected_lines (venue_suggestions content)))
    as (_ & Htext & Hmaps).
  pose proof (selected_count (venue_suggestions content)) as Hcount.
  pose proof (OrchestratorFacts.effective_length locations
                transport_preferences) as Hpad.
  cbn [fst snd].
  change (text_calls (TextCall ?r :: ?l)) with (r :: text_calls l).
  change (maps_calls (TextCall ?r :: ?l)) with (maps_calls l).
  cbn [List.length]. rewrite Htext, Hmaps.
  rewrite (Nat.min_l _ _ Hpad). destruct (maps_available mw); nia.
Qed.

End RecommenderFacts.

(** * Properties of the application *)

Module AppFacts.
Import PyStr Py Orchestrator Followup Recommender App.
Import Samples MoreSamples.

Lemma on_click_bounds (c : click) (n : Z) :
  (2 <= n <= 4)%Z -> (2 <= on_click c n <= 4)%Z.
Proof. destruct c; unfold on_click; lia. Qed.

Section Session.
Context {R : Runtime} {F : Formatting R}.
Variable tw : Followup.world.
Variable mw : Directions.world.

Lemma handle_num_users (s : session) (ev : event) :
  (2 <= num_users s <= 4)%Z -> (2 <= num_users (handle tw mw s ev) <= 4)%Z.
Proof.
  intros Hs. destruct ev as [c | f | followup_query]; cbn [handle].
  - cbn [num_users]. now apply on_click_bounds.
  - destruct (submit _ _ _ _ _ _); assumption.
  - destruct (truthy (recommendations s) && truthy (strip followup_query));
      assumption.
Qed.

(** X13: the group size stays between two and four through every
    sequence of clicks, submissions and questions; so a size that is
    neither two nor three is four. *)
Theorem group_size_bounds (events : list event) :
  (2 <= num_users (run tw mw events) <= 4)%Z
  /\ (num_users (run tw mw events) <> 2%Z ->
      num_users (run tw mw events) <> 3%Z ->
      num_users (run tw mw events) = 4%Z).
Proof.
  assert (Hinv : (2 <= num_users (run tw mw events) <= 4)%Z).
  { unfold run.
    assert (Hfresh : (2 <= num_users fresh <= 4)%Z) by (simpl; lia).
    revert Hfresh. generalize (@fresh R) as s.
    induction events as [| ev events IH]; intros s Hs; [exact Hs |].
    cbn [fold_left]. apply IH. now apply handle_num_users. }
  split; [exact Hinv | lia].
Qed.

End Session.

Lemma slice_to_firstn {A : Type} (n : Z) (l : list A) :
  (0 <= n)%Z -> slice_to n l = firstn (Z.to_nat n) l.
Proof.
  intros Hn. unfold slice_to.
  destruct (0 <=? n)%Z eqn:Hle; [reflexivity |].
  apply Z.leb_gt in Hle. lia.
Qed.

Lemma filter_all {A : Type} (p : A -> bool) (l : list A) :
  List.length l <= List.length (filter p l) -> filter p l = l.
Proof.
  intros Hlen. apply forallb_filter_id, filter_length_forallb.
  pose proof (filter_length_le p l). lia.
Qed.

(** X14: a submission that goes through hands [get_recommendations]
    exactly the first [num_users] location fields, none of them blank,
    with the first [num_users] preferences; when the form has as many
    preferences as locations the two lists have the same length, so no
    preference is added and each person keeps their own. *)
Theorem submit_requested (num_users : Z)
  (locations transport_preferences : list string)
  (specify_area : bool) (meeting_area activity : string)
  (valid_locations : list string) (area : option string)
  (valid_transport_prefs : list string) :
  (0 <= num_users)%Z ->
  submit num_users locations transport_preferences specify_area meeting_area
         activity
  = Requested valid_locations area valid_transport_prefs ->
  valid_locations = firstn (Z.to_nat num_users) locations
  /\ List.length valid_locations = Z.to_nat num_users
  /\ Forall (fun loc => truthy (strip loc) = true) valid_locations
  /\ valid_transport_prefs = firstn (Z.to_nat num_users) transport_preferences
  /\ truthy (strip activity) = true
  /\ area = (if specify_area then Some meeting_area else None)
  /\ (specify_area = true -> truthy (strip meeting_area) = true)
  /\ (List.length transport_preferences = List.length locations ->
      List.length valid_transport_prefs = List.length valid_locations
      /\ effective_preferences valid_locations (Some valid_transport_prefs)
         = valid_transport_prefs).
Proof.
  intros Hn. unfold submit.
  rewrite !slice_to_firstn by exact Hn.
  set (kept := filter (fun loc => truthy (strip loc))
                      (firstn (Z.to_nat num_users) locations)).
  destruct (Z.of_nat (List.length kept) <? num_users)%Z eqn:Hshort;
    [discriminate |].
  apply Z.ltb_ge in Hshort.
  destruct (specify_area && negb (truthy (strip meeting_area))) eqn:Harea;
    [discriminate |].
  destruct (negb (truthy (strip activity))) eqn:Hact; [discriminate |].
  intros [= <- <- <-].
  assert (Hfirst : List.length (firstn (Z.to_nat num_users) locations)
                   <= Z.to_nat num_users)
    by (rewrite length_firstn; lia).
  assert (Hkept : kept = firstn (Z.to_nat num_users) locations).
  { apply filter_all. fold kept. lia. }
  assert (Hlen : List.length kept = Z.to_nat num_users).
  { pose proof (filter_length_le (fun loc => truthy (strip loc))
                  (firstn (Z.to_nat num_users) locations)) as Hle.
    fold kept in Hle. lia. }
  split; [exact Hkept |]. split; [exact Hlen |]. split.
  { apply Forall_forall. intros loc Hloc. unfold kept in Hloc.
    apply filter_In in Hloc. tauto. }
  split; [reflexivity |]. split.
  { now destruct (truthy (strip activity)). }
  split; [reflexivity |]. split.
  { intros ->. cbn [andb] in Harea.
    now destruct (truthy (strip meeting_area)). }
  intros Hsame.
  assert (Hprefs : List.length (firstn (Z.to_nat num_users)
                                  transport_preferences)
                   = List.length kept).
  { rewrite Hkept, !length_firstn. lia. }
  split; [exact Hprefs |].
  unfold effective_preferences. rewrite OrchestratorFacts.pad_spec.
  rewrite Hprefs, Nat.sub_diag. apply app_nil_r.
Qed.

(** The theorem at a form for two people, one with trailing spaces. *)
Lemma submit_requested_witness :
  submit 2 ["Camden "; "Soho"; ""] ["walking"; "Any"; "driving"] false ""
         "Coffee/Cafe"
  = Requested ["Camden "; "Soho"] None ["walking"; "Any"]
  /\ effective_preferences ["Camden "; "Soho"] (Some ["walking"; "Any"])
     = ["walking"; "Any"].
Proof.
  split; [reflexivity |].
  assert (Hn : (0 <= 2)%Z) by lia.
  destruct (submit_requested 2 ["Camden "; "Soho"; ""]
              ["walking"; "Any"; "driving"] false "" "Coffee/Cafe"
              ["Camden "; "Soho"] None ["walking"; "Any"] Hn eq_refl)
    as (_ & _ & _ & _ & _ & _ & _ & Hsame).
  exact (proj2 (Hsame eq_refl)).
Defined.

Section Context.
Context {R : Runtime} {F : Formatting R}.
Variable tw : Followup.world.
Variable mw : Directions.world.

Lemma followup_context_rev (history : list interaction) :
  followup_context history = latest_query_context (rev history).
Proof.
  unfold followup_context.
  destruct (rev history) as [| [t | query response] rest]; reflexivity.
Qed.

(** The loop stops at the first query turn it meets. *)
Lemma latest_query_found (reversed : list interaction) :
  (exists t, In (QueryTurn t) reversed) ->
  exists t skipped rest,
    reversed = skipped ++ QueryTurn t :: rest
    /\ forallb is_followup skipped = true
    /\ latest_query_context reversed = context_of t.
Proof.
  induction reversed as [| i reversed IH]; intros [t Hin]; [destruct Hin |].
  destruct i as [t' | query response].
  - exists t', [], reversed. repeat split.
  - destruct Hin as [Hin | Hin]; [discriminate |].
    destruct IH as (t1 & skipped & rest & -> & Hskipped & Hctx);
      [now exists t |].
    exists t1, (FollowupTurn query response :: skipped), rest.
    repeat split; assumption.
Qed.

Lemma handle_keeps_query (s : session) (ev : event) :
  (truthy (recommendations s) = true ->
   exists t, In (QueryTurn t) (conversation_history s)) ->
  truthy (recommendations (handle tw mw s ev)) = true ->
  exists t, In (QueryTurn t) (conversation_history (handle tw mw s ev)).
Proof.
  intros Hs. destruct ev as [c | f | followup_query]; cbn [handle].
  - exact Hs.
  - destruct (submit _ _ _ _ _ _) as [message | locs area prefs]; [exact Hs |].
    cbn [recommendations conversation_history]. intros _.
    eexists. apply in_or_app. right. left. reflexivity.
  - destruct (truthy (recommendations s) && truthy (strip followup_query));
      [| exact Hs].
    cbn [recommendations conversation_history]. intros Hshown.
    destruct (Hs Hshown) as [t Hin]. exists t. apply in_or_app. now left.
Qed.

Lemma run_keeps_query (events : list event) :
  truthy (recommendations (run tw mw events)) = true ->
  exists t, In (QueryTurn t) (conversation_history (run tw mw events)).
Proof.
  unfold run.
  assert (Hfresh : truthy (recommendations fresh) = true ->
                   exists t, In (QueryTurn t) (conversation_history fresh))
    by discriminate.
  revert Hfresh. generalize (@fresh R) as s.
  induction events as [| ev events IH]; intros s Hs; [exact Hs |].
  cbn [fold_left]. apply IH. now apply handle_keeps_query.
Qed.

Lemma context_of_shown (t : query_turn) :
  truthy (strip (context_of t)) = true.
Proof.
  assert (Hhead : exists r, context_of t = String "P" r)
    by (eexists; reflexivity).
  destruct Hhead as [r ->]. unfold strip.
  change (lstrip (String "P" r)) with (String "P" r).
  destruct (ParserMore.rstrip_keeps_head "P" r eq_refl) as [r' ->].
  reflexivity.
Qed.

(** X15: whenever the application shows the follow-up form, the history
    holds a query turn, and the context handed to the responder is the
    one built from the latest query turn, however many questions came
    after it; that context is not blank, so the request carries the
    earlier recommendations and the template for a missing context is
    never the one sent. *)
Theorem followup_has_context (events : list event) :
  truthy (recommendations (run tw mw events)) = true ->
  exists (t : query_turn) (before after : list interaction),
    conversation_history (run tw mw events)
    = before ++ QueryTurn t :: after
    /\ forallb is_followup after = true
    /\ followup_context (conversation_history (run tw mw events))
       = context_of t
    /\ truthy (strip (context_of t)) = true
    /\ forall followup_query : string,
         full_prompt followup_query
           (followup_context (conversation_history (run tw mw events)))
         = prompt_with_context (context_of t) followup_query.
Proof.
  intros Hshown. apply run_keeps_query in Hshown.
  set (history := conversation_history (run tw mw events)) in *.
  assert (Hrev : exists t, In (QueryTurn t) (rev history)).
  { destruct Hshown as [t Hin]. exists t. now apply in_rev in Hin. }
  destruct (latest_query_found (rev history) Hrev)
    as (t & skipped & rest & Hsplit & Hskipped & Hctx).
  exists t, (rev rest), (rev skipped).
  assert (Hcontext : followup_context history = context_of t).
  { now rewrite followup_context_rev. }
  split.
  { rewrite <- (rev_involutive history), Hsplit, rev_app_distr.
    cbn [rev]. now rewrite <- app_assoc. }
  split.
  { rewrite forallb_forall in *. intros i Hi. apply Hskipped.
    now apply in_rev. }
  split; [exact Hcontext |].
  split; [apply context_of_shown |].
  intros followup_query. unfold full_prompt.
  now rewrite Hcontext, context_of_shown.
Qed.

End Context.

(** The theorem after one submission and two questions. *)
Lemma followup_has_context_witness :
  let s := @run sample_runtime sample_formatting answering routing
             [Submit sample_form; Ask "Is it quiet?"; Ask "And parking?"] in
  exists (t : query_turn) (before after : list interaction),
    conversation_history s = before ++ QueryTurn t :: after
    /\ forallb is_followup after = true
    /\ @followup_context sample_runtime sample_formatting
         (conversation_history s)
       = @context_of sample_runtime sample_formatting t.
Proof.
  intros s.
  assert (Hshown : truthy (recommendations s) = true)
    by (vm_compute; reflexivity).
  destruct (@followup_has_context sample_runtime sample_formatting
              answering routing
              [Submit sample_form; Ask "Is it quiet?"; Ask "And parking?"]
              Hshown)
    as (t & before & after & Hsplit & Hafter & Hcontext & _).
  exists t, before, after.
  split; [exact Hsplit |]. split; [exact Hafter | exact Hcontext].
Defined.

End AppFacts.

(** * Further properties of the follow-up responder *)

Module FollowupMore.
Import PyStr Py Followup Samples.

Lemma nonempty_append (a b : string) :
  a <> EmptyString -> (a ++ b)%string <> EmptyString.
Proof. destruct a; [congruence | discriminate]. Qed.

Lemma held_after (a b c d e : string) :
  exists before after : string,
    (a ++ b ++ c ++ d ++ e = before ++ d ++ after)%string.
Proof.
  exists (a ++ b ++ c)%string, e. now rewrite !ParserMore.append_assoc.
Qed.

(** X16: the responder never returns an empty answer and never makes
    more than one call, none at all without the credential; the call it
    makes has the fixed system message and a user message that holds the
    question as written and, when the context is not blank, the whole
    context before it. *)
Theorem followup_answer `{Runtime} (w : world) (query context : string) :
  let out := _handle_followup_async w query context in
  fst out <> EmptyString
  /\ List.length (snd out) <= 1
  /\ (credential (OPENAI_API_KEY w) = None -> snd out = [])
  /\ (forall r : chat_request,
      In r (snd out) ->
      exists user : string,
        messages r = [("system", system_prompt); ("user", user)]
        /\ (exists before after : string,
            user = (before ++ query ++ after)%string)
        /\ (truthy (strip context) = true ->
            exists before between after : string,
              user = (before ++ context ++ between ++ query ++ after)%string)).
Proof.
  intros out. subst out. unfold _handle_followup_async.
  destruct (credential (OPENAI_API_KEY w)) as [key |].
  2:{ split; [discriminate |]. split; [simpl; lia |].
      split; [reflexivity |]. intros r []. }
  destruct (make_client w key) as [e | []].
  { split; [discriminate |]. split; [simpl; lia |].
    split; [discriminate |]. intros r []. }
  cbn [fst snd]. split.
  { destruct (create w _) as [e | [content |]]; try discriminate.
    destruct content; [discriminate |]. cbn [truthy]. discriminate. }
  split; [simpl; lia |]. split; [discriminate |].
  intros r [<- | []]. unfold followup_request. cbn [messages].
  eexists. split; [reflexivity |]. unfold full_prompt. split.
  - destruct (truthy (strip context)).
    + unfold prompt_with_context. apply held_after.
    + unfold prompt_without_context.
      match goal with
      | |- exists before after, (?a ++ query ++ ?b)%string = _ =>
          exists a, b; reflexivity
      end.
  - intros ->. unfold prompt_with_context.
    match goal with
    | |- exists before between after,
           (?a ++ context ++ ?b ++ query ++ ?c)%string = _ =>
        exists a, b, c; reflexivity
    end.
Qed.

End FollowupMore.
